(** * Voice Language Translator (Translator.py): model and properties

    A shallow embedding of [Translator.py].  The script only sequences calls
    to external collaborators (microphone, speech recognition, language
    detection, translation, text-to-speech, the audio codec, the UI shell)
    and manages session state and temporary files.  The collaborators are
    kept abstract: an environment [Env] gives, for each of them, the answer
    it returns (or the exception it raises) as a function of its arguments
    and of the number of external calls made so far, so that the same
    request may succeed one time and fail the next.  Everything the script
    itself does - control flow, [try]/[except]/[finally], the registries,
    the session fields, creation and deletion of temporary files - is
    modelled as written. *)

From Stdlib Require Import Floats.PrimFloat.
From stdpp Require Import gmap strings list.

(** ** Data *)

Abbreviation bytes := (list Byte.byte).

(** Exceptions.  All of them are subclasses of Python's [Exception], which is
    what the [except Exception] clauses of the script catch (asynchronous
    signals such as [KeyboardInterrupt] are outside the model). *)
Inductive exn : Type :=
| UnknownValueError                      (* sr.UnknownValueError *)
| RequestError (msg : string)            (* sr.RequestError *)
| WaitTimeoutError (msg : string)        (* sr.WaitTimeoutError, listen timed out *)
| UnboundLocalError (var : string)       (* a local read before assignment *)
| FileNotFoundError (path : string)
| FileExistsError (msg : string)         (* OSError(17, msg), no filename *)
| OtherError (msg : string).             (* any other subclass of Exception *)

(** [str(e)], as interpolated by the f-strings of the script. *)
Definition exn_str (e : exn) : string :=
  match e with
  | UnknownValueError => EmptyString
  | RequestError m => m
  | WaitTimeoutError m => m
  | UnboundLocalError v =>
      "cannot access local variable '" +:+ v +:+ "' where it is not associated with a value"
  | FileNotFoundError p => "[Errno 2] No such file or directory: '" +:+ p +:+ "'"
  | FileExistsError m => "[Errno 17] " +:+ m
  | OtherError m => m
  end.

Inductive Res (A : Type) : Type :=
| Ok (a : A)
| Raise (e : exn).
Arguments Ok {A} a.
Arguments Raise {A} e.

(** Python truthiness of a string: [if s:]. *)
Definition truthy (s : string) : bool :=
  match s with
  | EmptyString => false
  | String _ _ => true
  end.

(** [speed != 1.0] on floats (IEEE comparison, as in Python). *)
Definition speed_ne_1 (speed : float) : bool := negb (PrimFloat.eqb speed 1%float).

(** ** The registries (lines 16-43)

    Python dictionaries keep insertion order, and [list(LANGUAGES.items())]
    feeds the selector, so the registries are association lists. *)

Definition LANGUAGES : list (string * string) :=
  [ ("en", "English"); ("es", "Spanish"); ("fr", "French"); ("de", "German");
    ("it", "Italian"); ("pt", "Portuguese"); ("ru", "Russian"); ("zh", "Chinese");
    ("ja", "Japanese"); ("hi", "Hindi"); ("ta", "Tamil") ].

Definition TTS_LANGUAGE_MAPPING : list (string * string) :=
  [ ("en", "en"); ("es", "es"); ("fr", "fr"); ("de", "de"); ("it", "it");
    ("pt", "pt"); ("ru", "ru"); ("zh", "zh"); ("ja", "ja"); ("hi", "hi");
    ("ta", "ta") ].

Fixpoint dict_lookup (d : list (string * string)) (k : string) : option string :=
  match d with
  | [] => None
  | (k', v) :: d' => if String.eqb k' k then Some v else dict_lookup d' k
  end.

(** [d.get(k, default)]. *)
Definition dict_get (d : list (string * string)) (k default : string) : string :=
  match dict_lookup d k with
  | Some v => v
  | None => default
  end.

Definition keys (d : list (string * string)) : list string := map fst d.

(** ** Session state, file system, trace *)

(** [st.session_state].  A field is [None] both when its key is absent and
    when it holds Python's [None]: lines 117-122 of [main] make the two
    indistinguishable for the three text fields, and [target_lang] is only
    ever written by the selector widget, with a (code, name) pair. *)
Record Session : Type := mkSession {
  input_text : option string;
  detected_lang : option (option string * string);
  translated_text : option string;
  target_lang : option (string * string)
}.

Record World : Type := mkWorld {
  session : Session;
  fs : gmap string bytes;     (* the files that exist, with their contents *)
  clock : nat                 (* number of external calls made so far *)
}.

(** External requests, as they appear in the trace. *)
Inductive request : Type :=
| q_Microphone
| q_listen
| q_get_wav_data
| q_mkstemp (suffix : string)
| q_record
| q_recognize_google
| q_detect (text : string)
| q_translate (text target source : string)
| q_gTTS (text lang : string)
| q_gTTS_save (text lang path : string)
| q_from_file
| q_speedup (speed : float)
| q_export.

Inductive event : Type :=
| st_title (s : string)
| st_write (s : string)
| st_subheader (s : string)
| st_info (s : string)
| st_success (s : string)
| st_error (s : string)
| st_warning (s : string)
| st_audio (data : bytes)
| Request (q : request)                          (* a call to a collaborator *)
| TempFile (path : string)                       (* a temporary file was created *)
| Enter_text_to_speech (text code : string) (speed : float).
                                                 (* text_to_speech was entered *)

(** ** The collaborators *)

Record Env : Type := mkEnv {
  sr_Microphone : nat -> Res unit;                      (* sr.Microphone().__enter__ *)
  recognizer_listen : nat -> Res bytes;                 (* recognizer.listen(source, timeout=5) *)
  get_wav_data : nat -> bytes -> Res bytes;             (* audio.get_wav_data() *)
  mkstemp : nat -> string -> Res string;                (* name chosen by tempfile *)
  recognizer_record : nat -> bytes -> Res bytes;        (* sr.AudioFile + recognizer.record *)
  recognize_google : nat -> bytes -> Res string;
  detect : nat -> string -> Res string;                 (* langdetect.detect *)
  translate : nat -> string -> string -> string -> Res string;
  gTTS : nat -> string -> string -> Res unit;           (* gTTS(text=, lang=, slow=False) *)
  gTTS_save : nat -> string -> string -> bytes * option exn;
      (* tts.save(path): the bytes it wrote, and the exception it raised, if any *)
  from_file : nat -> bytes -> Res bytes;                (* AudioSegment.from_file(.., "mp3") *)
  speedup : nat -> bytes -> float -> Res bytes;         (* audio.speedup(playback_speed=) *)
  export : nat -> bytes -> Res bytes                    (* audio.export(f, format="mp3") *)
}.

(** ** A state, exception and trace monad *)

Record Out (S A : Type) : Type := mkOut {
  res : Res A;
  st : S;
  log : list event
}.
Arguments mkOut {S A} res st log.
Arguments res {S A} o.
Arguments st {S A} o.
Arguments log {S A} o.

Definition M (S A : Type) : Type := S -> Out S A.

Definition ret {S A} (a : A) : M S A := fun s => mkOut (Ok a) s [].

Definition raise {S A} (e : exn) : M S A := fun s => mkOut (Raise e) s [].

Definition bind {S A B} (m : M S A) (k : A -> M S B) : M S B :=
  fun s =>
    match m s with
    | mkOut (Ok a) s1 l1 =>
        match k a s1 with
        | mkOut r s2 l2 => mkOut r s2 (l1 ++ l2)
        end
    | mkOut (Raise e) s1 l1 => mkOut (Raise e) s1 l1
    end.

Notation "x <- m ;; k" := (bind m (fun x => k))
  (at level 100, m at next level, right associativity).
Notation "m ;; k" := (bind m (fun _ => k))
  (at level 100, right associativity).

(** [try: m  except Exception as e: h e]. *)
Definition try_except {S A} (m : M S A) (h : exn -> M S A) : M S A :=
  fun s =>
    match m s with
    | mkOut (Ok a) s1 l1 => mkOut (Ok a) s1 l1
    | mkOut (Raise e) s1 l1 =>
        match h e s1 with
        | mkOut r s2 l2 => mkOut r s2 (l1 ++ l2)
        end
    end.

(** [try: m  finally: f]: [f] runs on every exit path of [m]; an exception
    raised by [f] replaces the outcome of [m]. *)
Definition try_finally {S A} (m : M S A) (f : M S unit) : M S A :=
  fun s =>
    match m s with
    | mkOut r s1 l1 =>
        match f s1 with
        | mkOut (Ok _) s2 l2 => mkOut r s2 (l1 ++ l2)
        | mkOut (Raise e) s2 l2 => mkOut (Raise e) s2 (l1 ++ l2)
        end
    end.

(** A function body runs over its frame of locals [L] and the world. *)
Definition in_world {L A} (m : M World A) : M (L * World) A :=
  fun s =>
    match m (snd s) with
    | mkOut r w l => mkOut r (fst s, w) l
    end.

(** A call: the callee starts with frame [l0], which is dropped on exit. *)
Definition call {L A} (l0 : L) (m : M (L * World) A) : M World A :=
  fun w =>
    match m (l0, w) with
    | mkOut r s l => mkOut r (snd s) l
    end.

Definition get_frame {L} : M (L * World) L :=
  fun s => mkOut (Ok (fst s)) s [].

Definition set_frame {L} (l : L) : M (L * World) unit :=
  fun s => mkOut (Ok tt) (l, snd s) [].

(** ** Primitive operations on the world *)

Definition emit (e : event) : M World unit :=
  fun w => mkOut (Ok tt) w [e].

(** A call to a collaborator: answered by the environment at the current
    tick, recorded in the trace. *)
Definition extern {A} (q : request) (f : nat -> Res A) : M World A :=
  fun w => mkOut (f (clock w)) (mkWorld (session w) (fs w) (S (clock w))) [Request q].

Definition get_session : M World Session :=
  fun w => mkOut (Ok (session w)) w [].

Definition set_session (ss : Session) : M World unit :=
  fun w => mkOut (Ok tt) (mkWorld ss (fs w) (clock w)) [].

Definition set_fs (f : gmap string bytes) (w : World) : World :=
  mkWorld (session w) f (clock w).

(** [open(path, "wb").write(data)]: creates or truncates. *)
Definition fs_write (path : string) (data : bytes) : M World unit :=
  fun w => mkOut (Ok tt) (set_fs (<[path := data]> (fs w)) w) [].

(** [open(path, "rb").read()]. *)
Definition fs_read (path : string) : M World bytes :=
  fun w =>
    match fs w !! path with
    | Some data => mkOut (Ok data) w []
    | None => mkOut (Raise (FileNotFoundError path)) w []
    end.

Definition os_path_exists (path : string) : M World bool :=
  fun w =>
    match fs w !! path with
    | Some _ => mkOut (Ok true) w []
    | None => mkOut (Ok false) w []
    end.

Definition os_unlink (path : string) : M World unit :=
  fun w =>
    match fs w !! path with
    | Some _ => mkOut (Ok tt) (set_fs (delete path (fs w)) w) []
    | None => mkOut (Raise (FileNotFoundError path)) w []
    end.

Section Translator.

Variable E : Env.

(** [tempfile.NamedTemporaryFile(suffix=.., delete=False)]: settles on a
    name and creates the file exclusively (O_EXCL), empty; the file stays
    when the [with] block closes it.  [mkstemp] stands for the whole search
    of tempfile for a free name, retries included: its answer is the name the
    search ends with.  Only when the candidates are exhausted is that name a
    taken one, and tempfile then raises
    [FileExistsError(17, "No usable temporary file name found")]. *)
Definition NamedTemporaryFile (suffix : string) : M World string :=
  name <- extern (q_mkstemp suffix) (fun k => mkstemp E k suffix) ;;
  ex <- os_path_exists name ;;
  if (ex : bool)
  then raise (FileExistsError "No usable temporary file name found")
  else fs_write name [] ;; emit (TempFile name) ;; ret name.

(** ** record_audio (lines 45-53) *)
Definition record_audio : M World string :=
  extern q_Microphone (sr_Microphone E) ;;
  emit (st_info "Speak now (3-5 seconds)...") ;;
  audio <- extern q_listen (recognizer_listen E) ;;
  f <- NamedTemporaryFile ".wav" ;;
  wav <- extern q_get_wav_data (fun k => get_wav_data E k audio) ;;
  fs_write f wav ;;
  ret f.

(** ** detect_language (lines 55-61) *)
Definition detect_language (text : string) : M World (option string * string) :=
  try_except
    (lang_code <- extern (q_detect text) (fun k => detect E k text) ;;
     ret (Some lang_code, dict_get LANGUAGES lang_code lang_code))
    (fun _ => ret (None, "Unknown")).

(** ** adjust_speed (lines 63-80) *)

(** The body of the [try]. *)
Definition adjust_speed_body (audio_bytes : bytes) (speed : float) : M World bytes :=
  audio <- extern q_from_file (fun k => from_file E k audio_bytes) ;;
  audio <- (if speed_ne_1 speed
            then extern (q_speedup speed) (fun k => speedup E k audio speed)
            else ret audio) ;;
  extern q_export (fun k => export E k audio).

Definition adjust_speed (audio_bytes : bytes) (speed : float) : M World bytes :=
  try_except
    (adjust_speed_body audio_bytes speed)
    (fun e =>
       emit (st_error ("Speed adjustment error: " +:+ exn_str e)) ;;
       ret audio_bytes).

(** ** text_to_speech (lines 82-110)

    The frame holds [temp_path], unbound ([None]) until line 87 has run; the
    [finally] clause tests ['temp_path' in locals()]. *)

Definition tts_save (text lang path : string) : M World unit :=
  fun w =>
    let r := gTTS_save E (clock w) text lang in
    mkOut (match snd r with None => Ok tt | Some e => Raise e end)
          (mkWorld (session w) (<[path := fst r]> (fs w)) (S (clock w)))
          [Request (q_gTTS_save text lang path)].

Definition text_to_speech_try (text language_code : string) (speed : float)
  : M (option string * World) bool :=
  temp_path <- in_world (NamedTemporaryFile ".mp3") ;;
  set_frame (Some temp_path) ;;
  in_world
    (let lang := dict_get TTS_LANGUAGE_MAPPING language_code "en" in
     extern (q_gTTS text lang) (fun k => gTTS E k text lang) ;;
     tts_save text lang temp_path ;;
     audio_bytes <- fs_read temp_path ;;
     audio_bytes <- (if speed_ne_1 speed
                     then adjust_speed audio_bytes speed
                     else ret audio_bytes) ;;
     emit (st_audio audio_bytes) ;;
     ret true).

Definition text_to_speech_finally : M (option string * World) unit :=
  temp_path <- get_frame ;;
  match temp_path with
  | Some p =>
      ex <- in_world (os_path_exists p) ;;
      if (ex : bool) then in_world (os_unlink p) else ret tt
  | None => ret tt
  end.

Definition text_to_speech (text language_code : string) (speed : float) : M World bool :=
  emit (Enter_text_to_speech text language_code speed) ;;
  call None
    (try_finally
       (try_except
          (text_to_speech_try text language_code speed)
          (fun e =>
             in_world (emit (st_error ("Text-to-speech error: " +:+ exn_str e))) ;;
             ret false))
       text_to_speech_finally).

(** ** main (lines 112-195)

    One run of the script, as the UI shell performs on every user action.
    [Inputs] is what the shell hands to the widgets of this run: which button
    was clicked, and where the speed slider stands.  Lines 117-122 set the
    three text fields to [None] when their keys are missing, which [Session]
    already identifies; the emoji of the title and of the button label are
    left out of the strings. *)

Record Inputs : Type := mkInputs {
  record_clicked : bool;        (* st.button("Record Voice") *)
  translate_clicked : bool;     (* st.button("Translate") *)
  slider_value : float          (* st.slider("Speech speed", 0.5, 2.0, 1.0, 0.1) *)
}.

(** The locals of [main] whose being bound matters: [audio_file] is tested
    with ['audio_file' in locals()] (line 143), and [speed] is assigned only
    inside the block of line 155 and read at line 193. *)
Record MainLocals : Type := mkLocals {
  audio_file : option string;
  speed : option float
}.

Definition set_audio_file (p : string) : M (MainLocals * World) unit :=
  fun s => mkOut (Ok tt) (mkLocals (Some p) (speed (fst s)), snd s) [].

Definition set_speed (v : float) : M (MainLocals * World) unit :=
  fun s => mkOut (Ok tt) (mkLocals (audio_file (fst s)) (Some v), snd s) [].

Definition set_input_text (v : option string) : M World unit :=
  ss <- get_session ;;
  set_session (mkSession v (detected_lang ss) (translated_text ss) (target_lang ss)).

Definition set_detected_lang (v : option (option string * string)) : M World unit :=
  ss <- get_session ;;
  set_session (mkSession (input_text ss) v (translated_text ss) (target_lang ss)).

Definition set_translated_text (v : option string) : M World unit :=
  ss <- get_session ;;
  set_session (mkSession (input_text ss) (detected_lang ss) v (target_lang ss)).

Definition set_target_lang (v : option (string * string)) : M World unit :=
  ss <- get_session ;;
  set_session (mkSession (input_text ss) (detected_lang ss) (translated_text ss) v).

(** [st.selectbox(.., options=.., key="target_lang")].  The shell keeps the
    value of a keyed widget in [st.session_state[key]]: the user's latest
    choice is already there when the script runs, and a widget rendered for
    the first time registers its default, the first option. *)
Definition selectbox (options : list (string * string)) : M World (option (string * string)) :=
  ss <- get_session ;;
  match target_lang ss with
  | Some v => ret (Some v)
  | None =>
      match options with
      | [] => ret None
      | o :: _ => set_target_lang (Some o) ;; ret (Some o)
      end
  end.

Definition is_truthy (o : option string) : bool :=
  match o with
  | Some s => truthy s
  | None => false
  end.

(** Lines 127-135: the body of the [try] of the record action. *)
Definition record_try : M (MainLocals * World) unit :=
  p <- in_world record_audio ;;
  set_audio_file p ;;
  in_world
    (data <- fs_read p ;;
     audio_data <- extern q_record (fun k => recognizer_record E k data) ;;
     text <- extern q_recognize_google (fun k => recognize_google E k audio_data) ;;
     set_input_text (Some text) ;;
     if truthy text then
       r <- detect_language text ;;
       set_detected_lang (Some r) ;;
       emit (st_success "Voice recorded successfully!")
     else ret tt).

(** Lines 136-141: the three [except] clauses. *)
Definition record_except (e : exn) : M (MainLocals * World) unit :=
  in_world
    (match e with
     | UnknownValueError =>
         emit (st_error "Could not understand audio. Please try again.")
     | RequestError _ =>
         emit (st_error ("Speech recognition service error: " +:+ exn_str e))
     | _ =>
         emit (st_error ("Error: " +:+ exn_str e))
     end).

(** Lines 142-144. *)
Definition record_finally : M (MainLocals * World) unit :=
  fr <- get_frame ;;
  match audio_file fr with
  | Some p =>
      ex <- in_world (os_path_exists p) ;;
      if (ex : bool) then in_world (os_unlink p) else ret tt
  | None => ret tt
  end.

(** Lines 125-144. *)
Definition record_section (inp : Inputs) : M (MainLocals * World) unit :=
  if record_clicked inp
  then try_finally (try_except record_try record_except) record_finally
  else ret tt.

(** Lines 147-152. *)
Definition display_section : M World unit :=
  ss <- get_session ;;
  match input_text ss with
  | Some text =>
      if truthy text then
        emit (st_subheader "Original Text") ;;
        emit (st_write text) ;;
        match detected_lang ss with
        | Some d => emit (st_write ("Detected language: " +:+ snd d))
        | None => ret tt
        end
      else ret tt
  | None => ret tt
  end.

(** Lines 155-184. *)
Definition translation_section (inp : Inputs) : M (MainLocals * World) unit :=
  ss <- in_world get_session ;;
  match input_text ss with
  | Some text =>
      if truthy text then
        target <- in_world (selectbox LANGUAGES) ;;
        set_speed (slider_value inp) ;;
        if translate_clicked inp then
          match target with
          | Some tl =>
              in_world
                (try_except
                   (t <- extern (q_translate text (fst tl) "auto")
                                (fun k => translate E k text (fst tl) "auto") ;;
                    set_translated_text (Some t))
                   (fun e => emit (st_error ("Translation error: " +:+ exn_str e))))
          | None => ret tt
          end
        else ret tt
      else ret tt
  | None => ret tt
  end.

(** Line 192: [st.session_state.get('target_lang', ('en', 'English'))[0]]. *)
Definition target_code (ss : Session) : string :=
  fst (match target_lang ss with
       | Some tl => tl
       | None => ("en", "English")
       end).

(** Reading the local [speed] (line 193). *)
Definition read_speed : M (MainLocals * World) float :=
  fr <- get_frame ;;
  match speed fr with
  | Some v => ret v
  | None => raise (UnboundLocalError "speed")
  end.

(** Lines 187-195. *)
Definition playback_section : M (MainLocals * World) unit :=
  ss <- in_world get_session ;;
  match translated_text ss with
  | Some text =>
      if truthy text then
        in_world (emit (st_subheader "Translation")) ;;
        in_world (emit (st_write text)) ;;
        let code := target_code ss in
        v <- read_speed ;;
        ok <- in_world (text_to_speech text code v) ;;
        if (ok : bool) then ret tt
        else
          in_world (emit (st_warning
            "Couldn't play audio in selected language. Trying English...")) ;;
          in_world (text_to_speech text "en" v) ;;
          ret tt
      else ret tt
  | None => ret tt
  end.

Definition main (inp : Inputs) : M World unit :=
  emit (st_title "Voice Language Translator") ;;
  emit (st_write
    "Record your voice, detect the language, and translate to another language") ;;
  call (mkLocals None None)
    (record_section inp ;;
     in_world display_section ;;
     translation_section inp ;;
     playback_section).

End Translator.

(** ** Reading a trace *)

(** The calls of [text_to_speech], in order. *)
Fixpoint attempts (l : list event) : list (string * string * float) :=
  match l with
  | [] => []
  | Enter_text_to_speech t c s :: l' => (t, c, s) :: attempts l'
  | _ :: l' => attempts l'
  end.

(** The temporary files created, in order. *)
Fixpoint temp_files (l : list event) : list string :=
  match l with
  | [] => []
  | TempFile p :: l' => p :: temp_files l'
  | _ :: l' => temp_files l'
  end.

(** The messages shown with [st.error]. *)
Fixpoint errors (l : list event) : list string :=
  match l with
  | [] => []
  | st_error m :: l' => m :: errors l'
  | _ :: l' => errors l'
  end.

(** The audio handed to [st.audio]. *)
Fixpoint audios (l : list event) : list bytes :=
  match l with
  | [] => []
  | st_audio d :: l' => d :: audios l'
  | _ :: l' => audios l'
  end.

(** The (text, lang) pairs the speech engine was constructed with. *)
Fixpoint voices (l : list event) : list (string * string) :=
  match l with
  | [] => []
  | Request (q_gTTS t lang) :: l' => (t, lang) :: voices l'
  | _ :: l' => voices l'
  end.

(** The calls to the audio codec. *)
Fixpoint codec_calls (l : list event) : list request :=
  match l with
  | [] => []
  | Request q_from_file :: l' => q_from_file :: codec_calls l'
  | Request (q_speedup s) :: l' => q_speedup s :: codec_calls l'
  | Request q_export :: l' => q_export :: codec_calls l'
  | _ :: l' => codec_calls l'
  end.

(** The message [main] shows for an exception of the record action
    (lines 136-141). *)
Definition record_error_message (e : exn) : string :=
  match e with
  | UnknownValueError => "Could not understand audio. Please try again."
  | RequestError m => "Speech recognition service error: " +:+ m
  | _ => "Error: " +:+ exn_str e
  end.

(** ** Concrete collaborators, for examples *)

(** A session where everything works: the recogniser hears a greeting, the
    translator answers in Spanish, the engine writes three bytes, and the
    codec re-encodes with a header byte of its own. *)
Definition studio : Env :=
  mkEnv (fun _ => Ok tt)
        (fun _ => Ok [Byte.x01; Byte.x02])
        (fun _ a => Ok (Byte.x52 :: a))
        (fun _ suffix => Ok ("/tmp/tmpk3" +:+ suffix))
        (fun _ d => Ok d)
        (fun _ _ => Ok "Hello, how are you?")
        (fun _ _ => Ok "en")
        (fun _ _ _ _ => Ok "Hola, como estas?")
        (fun _ _ _ => Ok tt)
        (fun _ _ _ => ([Byte.x49; Byte.x44; Byte.x33], None))
        (fun _ b => Ok b)
        (fun _ a _ => Ok a)
        (fun _ a => Ok (Byte.xff :: a)).

Definition with_listen (f : nat -> Res bytes) (E : Env) : Env :=
  mkEnv (sr_Microphone E) f (get_wav_data E) (mkstemp E) (recognizer_record E)
        (recognize_google E) (detect E) (translate E) (gTTS E) (gTTS_save E)
        (from_file E) (speedup E) (export E).

Definition with_get_wav_data (f : nat -> bytes -> Res bytes) (E : Env) : Env :=
  mkEnv (sr_Microphone E) (recognizer_listen E) f (mkstemp E) (recognizer_record E)
        (recognize_google E) (detect E) (translate E) (gTTS E) (gTTS_save E)
        (from_file E) (speedup E) (export E).

Definition with_recognize_google (f : nat -> bytes -> Res string) (E : Env) : Env :=
  mkEnv (sr_Microphone E) (recognizer_listen E) (get_wav_data E) (mkstemp E)
        (recognizer_record E) f (detect E) (translate E) (gTTS E) (gTTS_save E)
        (from_file E) (speedup E) (export E).

Definition with_detect (f : nat -> string -> Res string) (E : Env) : Env :=
  mkEnv (sr_Microphone E) (recognizer_listen E) (get_wav_data E) (mkstemp E)
        (recognizer_record E) (recognize_google E) f (translate E) (gTTS E)
        (gTTS_save E) (from_file E) (speedup E) (export E).

Definition with_translate (f : nat -> string -> string -> string -> Res string)
  (E : Env) : Env :=
  mkEnv (sr_Microphone E) (recognizer_listen E) (get_wav_data E) (mkstemp E)
        (recognizer_record E) (recognize_google E) (detect E) f (gTTS E)
        (gTTS_save E) (from_file E) (speedup E) (export E).

Definition with_gTTS (f : nat -> string -> string -> Res unit) (E : Env) : Env :=
  mkEnv (sr_Microphone E) (recognizer_listen E) (get_wav_data E) (mkstemp E)
        (recognizer_record E) (recognize_google E) (detect E) (translate E) f
        (gTTS_save E) (from_file E) (speedup E) (export E).

Definition with_gTTS_save (f : nat -> string -> string -> bytes * option exn)
  (E : Env) : Env :=
  mkEnv (sr_Microphone E) (recognizer_listen E) (get_wav_data E) (mkstemp E)
        (recognizer_record E) (recognize_google E) (detect E) (translate E)
        (gTTS E) f (from_file E) (speedup E) (export E).

Definition with_from_file (f : nat -> bytes -> Res bytes) (E : Env) : Env :=
  mkEnv (sr_Microphone E) (recognizer_listen E) (get_wav_data E) (mkstemp E)
        (recognizer_record E) (recognize_google E) (detect E) (translate E)
        (gTTS E) (gTTS_save E) f (speedup E) (export E).

(** Nobody speaks: [listen] times out. *)
Definition silent_room : Env :=
  with_listen (fun _ => Raise (WaitTimeoutError
    "listening timed out while waiting for phrase to start")) studio.

(** The recogniser cannot make out the words. *)
Definition garbled : Env :=
  with_recognize_google (fun _ _ => Raise UnknownValueError) studio.

(** The recognition service is unreachable. *)
Definition offline_recognizer : Env :=
  with_recognize_google
    (fun _ _ => Raise (RequestError "recognition connection failed")) studio.

(** The detector finds no features in the text. *)
Definition no_features : Env :=
  with_detect (fun _ _ => Raise (OtherError "No features in text.")) studio.

(** The detector answers with a code outside the registry. *)
Definition dutch_speaker : Env :=
  with_detect (fun _ _ => Ok "nl") studio.

(** The translation service is unreachable. *)
Definition offline_translator : Env :=
  with_translate (fun _ _ _ _ => Raise (OtherError "HTTP Error 503")) studio.

(** The engine rejects every language but English. *)
Definition english_only_engine : Env :=
  with_gTTS (fun _ _ lang =>
               if String.eqb lang "en" then Ok tt
               else Raise (OtherError ("Language not supported: " +:+ lang)))
            studio.

(** The engine answers without any audio: [save] writes an empty file and
    raises nothing. *)
Definition mute_engine : Env :=
  with_gTTS_save (fun _ _ _ => ([], None)) studio.

(** The recogniser hears the greeting on the first recording and nothing
    intelligible, an empty transcript, on later ones (the first recognition
    is the sixth external call of the session). *)
Definition mumbling : Env :=
  with_recognize_google
    (fun k _ => if Nat.leb k 5 then Ok "Hello, how are you?" else Ok EmptyString)
    studio.

(** The codec cannot decode its input. *)
Definition broken_codec : Env :=
  with_from_file (fun _ _ => Raise (OtherError "Decoding failed")) studio.

Definition empty_session : Session := mkSession None None None None.

Definition w0 : World := mkWorld empty_session ∅ 0.

(** A session that has heard and translated a sentence. *)
Definition translated_session : Session :=
  mkSession (Some "Hello, how are you?") (Some (Some "en", "English"))
            (Some "Hola, como estas?") (Some ("es", "Spanish")).

Definition mp3 : bytes := [Byte.x49; Byte.x44; Byte.x33].

(** A step of [adjust_speed] fails at tick [k]: decoding, the speed change,
    or re-encoding (with or without a speed change before it). *)
Inductive adjust_step_fails (E : Env) (b : bytes) (s : float) (k : nat) : exn -> Prop :=
| decode_fails e :
    from_file E k b = Raise e ->
    adjust_step_fails E b s k e
| speed_change_fails a e :
    from_file E k b = Ok a ->
    speed_ne_1 s = true ->
    speedup E (S k) a s = Raise e ->
    adjust_step_fails E b s k e
| encode_fails a e :
    from_file E k b = Ok a ->
    speed_ne_1 s = false ->
    export E (S k) a = Raise e ->
    adjust_step_fails E b s k e
| encode_fails_after_speed_change a a' e :
    from_file E k b = Ok a ->
    speed_ne_1 s = true ->
    speedup E (S k) a s = Ok a' ->
    export E (S (S k)) a' = Raise e ->
    adjust_step_fails E b s k e.

(** ** Further trace readers and collaborators *)

(** The (text, target, source) triples sent to the translator. *)
Fixpoint translations (l : list event) : list (string * string * string) :=
  match l with
  | [] => []
  | Request (q_translate text target source) :: l' =>
      (text, target, source) :: translations l'
  | _ :: l' => translations l'
  end.

(** The success notices shown with [st.success]. *)
Fixpoint successes (l : list event) : list string :=
  match l with
  | [] => []
  | st_success m :: l' => m :: successes l'
  | _ :: l' => successes l'
  end.

Definition with_mkstemp (f : nat -> string -> Res string) (E : Env) : Env :=
  mkEnv (sr_Microphone E) (recognizer_listen E) (get_wav_data E) f
        (recognizer_record E) (recognize_google E) (detect E) (translate E)
        (gTTS E) (gTTS_save E) (from_file E) (speedup E) (export E).

(** No temporary file can be created. *)
Definition no_tmp_dir : Env :=
  with_mkstemp (fun _ _ => Raise (OtherError "No usable temporary directory found"))
               studio.

(** The captured audio cannot be converted to WAV. *)
Definition conversion_failure : Env :=
  with_get_wav_data (fun _ _ => Raise (OtherError "conversion failed")) studio.

(** The recogniser returns an empty transcript. *)
Definition empty_transcript : Env :=
  with_recognize_google (fun _ _ => Ok EmptyString) studio.

(** A session that has heard a sentence and not translated it yet. *)
Definition heard_session : Session :=
  mkSession (Some "Hello, how are you?") (Some (Some "en", "English"))
            None (Some ("es", "Spanish")).

(** * Properties *)

(** ** Tactics for running the model *)

Ltac unfold_monad :=
  unfold bind, ret, raise, try_except, try_finally, in_world, call, get_frame,
    set_frame, emit, extern, get_session, set_session, fs_write, fs_read,
    os_path_exists, os_unlink, set_fs in *.

Ltac simp_fs :=
  repeat (rewrite ?lookup_insert_eq, ?lookup_delete_eq, ?insert_insert_eq,
            ?delete_insert_eq in *).

(** Case analysis on the innermost scrutinee the goal is stuck on. *)
Ltac step :=
  match goal with
  | |- context [match ?x with _ => _ end] =>
      lazymatch x with
      | context [match _ with _ => _ end] => fail
      | _ => destruct x eqn:?
      end
  end.

Ltac run :=
  repeat (cbn -[lookup insert delete exn_str] in *; simp_fs; try step);
  try discriminate.

(** ** The registries *)

Lemma dict_lookup_None (d : list (string * string)) (k : string) :
  dict_lookup d k = None <-> ~ In k (keys d).
Proof.
  induction d as [|[k' v] d IH]; simpl.
  - tauto.
  - destruct (String.eqb k' k) eqn:Hk.
    + apply String.eqb_eq in Hk. split; [discriminate | tauto].
    + apply String.eqb_neq in Hk. rewrite IH. tauto.
Qed.

Lemma dict_get_unmapped (d : list (string * string)) (k default : string) :
  ~ In k (keys d) -> dict_get d k default = default.
Proof.
  intros H. unfold dict_get. apply dict_lookup_None in H. now rewrite H.
Qed.

Lemma dict_get_mapped (d : list (string * string)) (k v default : string) :
  dict_lookup d k = Some v -> dict_get d k default = v.
Proof. intros H. unfold dict_get. now rewrite H. Qed.

(** ** Traces *)

Lemma attempts_app (l1 l2 : list event) :
  attempts (l1 ++ l2) = attempts l1 ++ attempts l2.
Proof. induction l1 as [|[] l1 IH]; cbn; congruence. Qed.

Lemma temp_files_app (l1 l2 : list event) :
  temp_files (l1 ++ l2) = temp_files l1 ++ temp_files l2.
Proof. induction l1 as [|[] l1 IH]; cbn; congruence. Qed.

Lemma errors_app (l1 l2 : list event) :
  errors (l1 ++ l2) = errors l1 ++ errors l2.
Proof. induction l1 as [|[] l1 IH]; cbn; congruence. Qed.

Lemma audios_app (l1 l2 : list event) :
  audios (l1 ++ l2) = audios l1 ++ audios l2.
Proof. induction l1 as [|[] l1 IH]; cbn; congruence. Qed.

Lemma voices_app (l1 l2 : list event) :
  voices (l1 ++ l2) = voices l1 ++ voices l2.
Proof.
  induction l1 as [|ev l1 IH]; [reflexivity|].
  destruct ev as [| | | | | | | |q| |]; cbn; try congruence.
  destruct q; cbn; congruence.
Qed.

Lemma codec_calls_app (l1 l2 : list event) :
  codec_calls (l1 ++ l2) = codec_calls l1 ++ codec_calls l2.
Proof.
  induction l1 as [|ev l1 IH]; [reflexivity|].
  destruct ev as [| | | | | | | |q| |]; cbn; try congruence.
  destruct q; cbn; congruence.
Qed.

Create Rewrite HintDb trace.
#[global] Hint Rewrite attempts_app temp_files_app errors_app audios_app
  voices_app codec_calls_app @app_nil_r : trace.

(** Normalise what the trace readers say of a trace built by the monad,
    using the facts known of its parts. *)
Ltac simp_log :=
  repeat progress (cbn -[lookup insert delete exn_str] in *;
                   autorewrite with trace in * );
  repeat match goal with
         | H : ?f ?l = [] |- context [?f ?l] => rewrite H
         | H : ?f ?l = [_] |- context [?f ?l] => rewrite H
         end;
  cbn -[lookup insert delete exn_str] in *.

(** Normalise the file system, using the facts known of intermediate worlds. *)
Ltac simp_del :=
  repeat match goal with
         | H : fs ?st = _ |- _ => rewrite H in *; clear H
         end;
  simp_fs;
  rewrite ?delete_id by assumption;
  try discriminate.

Ltac simp_session :=
  repeat match goal with
         | H : session ?s = _ |- context [session ?s] => rewrite H
         end;
  cbn -[lookup insert delete exn_str].

(** ** detect_language *)

(** C5. [detect_language] never raises: it always returns a pair; and when
    the detector fails (raises whatever exception) the pair is the sentinel
    [(None, "Unknown")]. *)
Theorem detect_language_never_raises (E : Env) (text : string) (w : World) :
  (exists r, res (detect_language E text w) = Ok r) /\
  (forall e, detect E (clock w) text = Raise e ->
             res (detect_language E text w) = Ok (None, "Unknown")).
Proof.
  unfold detect_language. unfold_monad. cbn.
  destruct (detect E (clock w) text) as [code|e0] eqn:Hd; cbn.
  - split; [eauto | discriminate].
  - split; [eauto | reflexivity].
Qed.

Lemma detect_language_never_raises_witness :
  res (detect_language no_features "12345" w0) = Ok (None, "Unknown").
Proof.
  apply (proj2 (detect_language_never_raises no_features "12345" w0)
               (OtherError "No features in text.")).
  reflexivity.
Defined.

(** C9. When the detector succeeds with a code that is not a key of
    [LANGUAGES], [detect_language] returns the pair (code, code): the display
    name is the detected code itself. *)
Theorem detect_language_unregistered (E : Env) (text code : string) (w : World) :
  detect E (clock w) text = Ok code ->
  ~ In code (keys LANGUAGES) ->
  res (detect_language E text w) = Ok (Some code, code).
Proof.
  intros Hd Hk. unfold detect_language. unfold_monad.
  cbn -[dict_get]. rewrite Hd. cbn -[dict_get].
  now rewrite (dict_get_unmapped _ _ _ Hk).
Qed.

Lemma detect_language_unregistered_witness :
  res (detect_language dutch_speaker "Hoe gaat het met je?" w0) = Ok (Some "nl", "nl").
Proof.
  apply (detect_language_unregistered dutch_speaker "Hoe gaat het met je?" "nl" w0).
  - reflexivity.
  - vm_compute. intuition discriminate.
Defined.

(** For a registered code the display name comes from the registry. *)
Lemma detect_language_registered (E : Env) (text code name : string) (w : World) :
  detect E (clock w) text = Ok code ->
  dict_lookup LANGUAGES code = Some name ->
  res (detect_language E text w) = Ok (Some code, name).
Proof.
  intros Hd Hk. unfold detect_language. unfold_monad.
  cbn -[dict_get]. rewrite Hd. cbn -[dict_get].
  now rewrite (dict_get_mapped _ _ _ _ Hk).
Qed.

(** What [detect_language] leaves alone. *)
Lemma detect_language_frame (E : Env) (text : string) (w : World) :
  let o := detect_language E text w in
  (exists r, res o = Ok r) /\ session (st o) = session w /\ fs (st o) = fs w /\
  attempts (log o) = [] /\ temp_files (log o) = [] /\ errors (log o) = [].
Proof.
  unfold detect_language. unfold_monad. run; eauto 10.
Qed.

(** ** adjust_speed *)

Lemma adjust_speed_body_raises (E : Env) (b : bytes) (s : float) (w : World) (e : exn) :
  adjust_step_fails E b s (clock w) e ->
  res (adjust_speed_body E b s w) = Raise e.
Proof.
  unfold adjust_speed_body. unfold_monad.
  intros [e' H1 | a e' H1 H2 H3 | a e' H1 H2 H3 | a a' e' H1 H2 H3 H4]; cbn;
    rewrite H1; cbn; try rewrite H2; cbn; try rewrite H3; cbn;
    try rewrite H4; reflexivity.
Qed.

(** The handler of [adjust_speed] turns every exception of the body into the
    original bytes. *)
Lemma adjust_speed_handles (E : Env) (b : bytes) (s : float) (w : World) (e : exn) :
  res (adjust_speed_body E b s w) = Raise e ->
  res (adjust_speed E b s w) = Ok b /\
  In ("Speed adjustment error: " +:+ exn_str e) (errors (log (adjust_speed E b s w))).
Proof.
  unfold adjust_speed. unfold try_except at 1 2.
  destruct (adjust_speed_body E b s w) as [[b'|e'] w' l]; cbn; [discriminate|].
  intros [= ->]. split; [reflexivity|].
  rewrite errors_app. apply in_or_app. right. cbn. now left.
Qed.

(** C4. [adjust_speed] never raises, whatever the bytes and the speed; and
    whenever decoding, the speed change or re-encoding fails, it returns the
    bytes it was given (after showing the error). *)
Theorem adjust_speed_never_raises (E : Env) (b : bytes) (s : float) (w : World) :
  (exists b', res (adjust_speed E b s w) = Ok b') /\
  (forall e, adjust_step_fails E b s (clock w) e ->
             res (adjust_speed E b s w) = Ok b /\
             In ("Speed adjustment error: " +:+ exn_str e)
                (errors (log (adjust_speed E b s w)))).
Proof.
  split.
  - destruct (res (adjust_speed_body E b s w)) as [b'|e] eqn:Hb.
    + exists b'. unfold adjust_speed, try_except.
      destruct (adjust_speed_body E b s w) as [[b''|e'] w' l]; cbn in *; congruence.
    + exists b. now apply adjust_speed_handles in Hb.
  - intros e H. apply adjust_speed_handles. now apply adjust_speed_body_raises.
Qed.

Lemma adjust_speed_never_raises_witness :
  res (adjust_speed broken_codec mp3 1.5 w0) = Ok mp3.
Proof.
  apply (proj2 (adjust_speed_never_raises broken_codec mp3 1.5 w0)
               (OtherError "Decoding failed")).
  apply decode_fails. reflexivity.
Defined.

(** What [adjust_speed] leaves alone: the session, the files, and every
    trace entry other than its own codec requests and error message. *)
Lemma adjust_speed_frame (E : Env) (b : bytes) (s : float) (w : World) :
  let o := adjust_speed E b s w in
  (exists b', res o = Ok b') /\
  session (st o) = session w /\ fs (st o) = fs w /\
  attempts (log o) = [] /\ temp_files (log o) = [] /\
  audios (log o) = [] /\ voices (log o) = [].
Proof.
  unfold adjust_speed, adjust_speed_body. unfold_monad. run; eauto 10.
Qed.

(** At speed 1.0 [adjust_speed] asks for no speed change, but it still
    decodes and re-encodes: the result is the re-encoding when both steps
    succeed, the input otherwise. *)
Lemma adjust_speed_1 (E : Env) (b : bytes) (w : World) :
  res (adjust_speed E b 1 w) =
    match from_file E (clock w) b with
    | Ok a =>
        match export E (S (clock w)) a with
        | Ok b' => Ok b'
        | Raise _ => Ok b
        end
    | Raise _ => Ok b
    end.
Proof.
  unfold adjust_speed, adjust_speed_body. unfold_monad.
  change (speed_ne_1 1) with false. run; reflexivity.
Qed.

Arguments adjust_speed : simpl never.

Ltac use_adjust_speed :=
  repeat match goal with
  | H : adjust_speed ?E ?b ?s ?w = mkOut _ _ _ |- _ =>
      let F := fresh "F" in
      pose proof (adjust_speed_frame E b s w) as F;
      cbv zeta in F; rewrite H in F; cbn in F;
      destruct F as ([? ?] & ? & ? & ? & ? & ? & ?);
      clear H
  end.

(** ** text_to_speech *)

Ltac unfold_tts :=
  unfold text_to_speech, text_to_speech_try, text_to_speech_finally,
    NamedTemporaryFile, tts_save.

(** [text_to_speech] never raises, leaves the session and the file system
    as it found them, creates its temporary file under a fresh name, and
    records its own entry once. *)
Lemma text_to_speech_frame (E : Env) (t c : string) (s : float) (w : World) :
  let o := text_to_speech E t c s w in
  (exists ok, res o = Ok ok) /\
  session (st o) = session w /\
  fs (st o) = fs w /\
  (forall p, In p (temp_files (log o)) -> fs w !! p = None) /\
  attempts (log o) = [(t, c, s)].
Proof.
  unfold_tts. unfold_monad. run.
  all: use_adjust_speed; simp_del; simp_log; subst; try congruence.
  all: repeat split; eauto.
  all: try (intros p [<-|[]]; assumption).
  all: intros p [].
Qed.

(** It either plays one audio clip and returns [True], or shows an error,
    plays nothing and returns [False]. *)
Lemma text_to_speech_outcome (E : Env) (t c : string) (s : float) (w : World) :
  let o := text_to_speech E t c s w in
  (res o = Ok true /\ exists d, audios (log o) = [d]) \/
  (res o = Ok false /\ audios (log o) = [] /\
   exists e, In ("Text-to-speech error: " +:+ exn_str e) (errors (log o))).
Proof.
  unfold_tts. unfold_monad. run.
  all: use_adjust_speed; simp_del; simp_log; subst; try congruence.
  all: try (left; split; [reflexivity | eauto]; fail).
  all: right; split; [reflexivity | split; [reflexivity|]].
  all: eexists; rewrite ?in_app_iff; cbn -[exn_str]; eauto.
Qed.

(** The engine is constructed at most once, with the voice the registry
    gives for the code ([en] by default), and exactly once as soon as the
    temporary file could be created. *)
Lemma text_to_speech_voice_requests (E : Env) (t c : string) (s : float) (w : World) :
  let o := text_to_speech E t c s w in
  let lang := dict_get TTS_LANGUAGE_MAPPING c "en" in
  (voices (log o) = [] \/ voices (log o) = [(t, lang)]) /\
  (forall p, mkstemp E (clock w) ".mp3" = Ok p -> fs w !! p = None ->
             voices (log o) = [(t, lang)]).
Proof.
  unfold_tts. unfold_monad. run.
  all: use_adjust_speed; simp_del; simp_log; subst; try congruence.
  all: split; [eauto | intros; congruence].
Qed.

(** At speed 1.0 the codec is not called, and what is played is what the
    engine saved. *)
Lemma text_to_speech_normal_speed (E : Env) (t c : string) (s : float) (w : World) :
  speed_ne_1 s = false ->
  let o := text_to_speech E t c s w in
  codec_calls (log o) = [] /\
  (forall d, In d (audios (log o)) ->
     d = fst (gTTS_save E (S (S (clock w))) t (dict_get TTS_LANGUAGE_MAPPING c "en"))).
Proof.
  intros Hs. unfold_tts. unfold_monad. rewrite Hs. run.
  all: simp_del; simp_log; subst; try congruence.
  all: split; [reflexivity | intros d Hd; intuition congruence].
Qed.

Lemma emit_bind {A} (ev : event) (m : M World A) (w : World) :
  (emit ev ;; m) w = mkOut (res (m w)) (st (m w)) (ev :: log (m w)).
Proof. unfold bind, emit. now destruct (m w). Qed.

(** The language code matters only through the voice it is mapped to. *)
Lemma text_to_speech_same_voice (E : Env) (t c c' : string) (s : float) (w : World) :
  dict_get TTS_LANGUAGE_MAPPING c "en" = dict_get TTS_LANGUAGE_MAPPING c' "en" ->
  res (text_to_speech E t c s w) = res (text_to_speech E t c' s w) /\
  st (text_to_speech E t c s w) = st (text_to_speech E t c' s w) /\
  tail (log (text_to_speech E t c s w)) = tail (log (text_to_speech E t c' s w)).
Proof.
  intros Hv. unfold text_to_speech. rewrite !emit_bind.
  unfold text_to_speech_try. rewrite Hv. auto.
Qed.

(** C1 (as stated, refuted).  [adjust_speed(b, 1.0)] is not the identity: at
    speed 1.0 the bytes are still decoded and re-encoded, and a codec whose
    encoder writes a header of its own returns other bytes than it was
    given. *)
Lemma adjust_speed_1_not_identity :
  res (adjust_speed studio mp3 1 w0) <> Ok mp3.
Proof. vm_compute. discriminate. Qed.

(** C1 (amended).  At speed 1.0 [adjust_speed] requests no speed change: it
    returns the re-encoding of the decoded input when both steps succeed and
    the input itself when either fails.  Byte-for-byte identity at speed 1.0
    is the caller's doing: [text_to_speech] does not call the codec at all
    when the speed is 1.0, and plays exactly the bytes the engine saved. *)
Theorem adjust_speed_normal_speed (E : Env) (b : bytes) (t c : string) (w : World) :
  res (adjust_speed E b 1 w) =
    match from_file E (clock w) b with
    | Ok a =>
        match export E (S (clock w)) a with
        | Ok b' => Ok b'
        | Raise _ => Ok b
        end
    | Raise _ => Ok b
    end /\
  codec_calls (log (text_to_speech E t c 1 w)) = [] /\
  (forall d, In d (audios (log (text_to_speech E t c 1 w))) ->
     d = fst (gTTS_save E (S (S (clock w))) t (dict_get TTS_LANGUAGE_MAPPING c "en"))).
Proof.
  split; [apply adjust_speed_1|].
  now apply text_to_speech_normal_speed.
Qed.

(** Looking a code up finds the entry the registry lists for it. *)
Lemma voice_registry_lookup (c lang : string) :
  In (c, lang) TTS_LANGUAGE_MAPPING ->
  dict_lookup TTS_LANGUAGE_MAPPING c = Some lang.
Proof.
  cbn. intros H.
  repeat (destruct H as [[= <- <-]|H]; [reflexivity|]). destruct H.
Qed.

(** C8. The voice is found by looking the code up in
    [TTS_LANGUAGE_MAPPING].  For a code the registry lists, the engine is
    constructed with the voice listed for it - with nothing else, and
    actually with it as soon as the temporary file could be created.  For a
    code the registry does not list, the engine is constructed with [en] in
    the same way; such a code does not fail outright, it is handled exactly
    as [en] is (same result, same final state, same trace after the
    entry). *)
Theorem text_to_speech_voice_fallback (E : Env) (t c : string) (s : float) (w : World) :
  let o := text_to_speech E t c s w in
  (forall lang, In (c, lang) TTS_LANGUAGE_MAPPING ->
     (forall x, In x (voices (log o)) -> x = (t, lang)) /\
     (forall p, mkstemp E (clock w) ".mp3" = Ok p -> fs w !! p = None ->
                voices (log o) = [(t, lang)])) /\
  (~ In c (keys TTS_LANGUAGE_MAPPING) ->
     (forall x, In x (voices (log o)) -> x = (t, "en")) /\
     (forall p, mkstemp E (clock w) ".mp3" = Ok p -> fs w !! p = None ->
                voices (log o) = [(t, "en")]) /\
     res o = res (text_to_speech E t "en" s w) /\
     st o = st (text_to_speech E t "en" s w) /\
     tail (log o) = tail (log (text_to_speech E t "en" s w))).
Proof.
  cbv zeta.
  destruct (text_to_speech_voice_requests E t c s w) as [Hv Hreq].
  split.
  - intros lang Hl. apply voice_registry_lookup in Hl.
    rewrite (dict_get_mapped _ _ _ _ Hl) in Hv, Hreq.
    split; [|exact Hreq].
    intros x Hx. destruct Hv as [Hv|Hv]; rewrite Hv in Hx; [destruct Hx|].
    destruct Hx as [<-|[]]. reflexivity.
  - intros Hc. rewrite (dict_get_unmapped _ _ _ Hc) in Hv, Hreq.
    split; [|split; [exact Hreq|]].
    + intros x Hx. destruct Hv as [Hv|Hv]; rewrite Hv in Hx; [destruct Hx|].
      destruct Hx as [<-|[]]. reflexivity.
    + apply text_to_speech_same_voice. now rewrite (dict_get_unmapped _ _ _ Hc).
Qed.

Lemma text_to_speech_voice_fallback_witness :
  voices (log (text_to_speech studio "Hola, como estas?" "es" 1 w0)) =
    [("Hola, como estas?", "es")] /\
  voices (log (text_to_speech studio "Hallo, hoe gaat het?" "nl" 1 w0)) =
    [("Hallo, hoe gaat het?", "en")].
Proof.
  split.
  - apply (proj1 (text_to_speech_voice_fallback studio "Hola, como estas?" "es" 1 w0)
             "es") with (p := "/tmp/tmpk3.mp3").
    + vm_compute. tauto.
    + reflexivity.
    + reflexivity.
  - apply (proj2 (text_to_speech_voice_fallback studio "Hallo, hoe gaat het?" "nl" 1 w0))
      with (p := "/tmp/tmpk3.mp3").
    + vm_compute. intuition discriminate.
    + reflexivity.
    + reflexivity.
Defined.

Arguments text_to_speech : simpl never.
Arguments detect_language : simpl never.

Ltac use_text_to_speech :=
  repeat match goal with
  | H : text_to_speech ?E ?t ?c ?s ?w = mkOut _ _ _ |- _ =>
      let F := fresh "F" in
      pose proof (text_to_speech_frame E t c s w) as F;
      cbv zeta in F; rewrite H in F;
      cbn -[lookup insert delete exn_str] in F;
      destruct F as ([? ?] & ? & ? & ? & ?);
      clear H
  end.

Ltac use_detect_language :=
  repeat match goal with
  | H : detect_language ?E ?t ?w = mkOut _ _ _ |- _ =>
      let F := fresh "F" in
      pose proof (detect_language_frame E t w) as F;
      cbv zeta in F; rewrite H in F;
      cbn -[lookup insert delete exn_str] in F;
      destruct F as ([? ?] & ? & ? & ? & ? & ?);
      clear H
  end.

(** ** record_audio *)

(** [record_audio] touches neither the session nor the speech engine; when
    it returns a path, that path was free before, and the file it names is
    still there on return. *)
Lemma record_audio_frame (E : Env) (w : World) :
  let o := record_audio E w in
  session (st o) = session w /\ attempts (log o) = [] /\ errors (log o) = [] /\
  (forall p, res o = Ok p ->
     fs w !! p = None /\ temp_files (log o) = [p] /\
     exists wav, fs (st o) = <[p := wav]> (fs w)).
Proof.
  unfold record_audio, NamedTemporaryFile. unfold_monad. run.
  all: repeat split; try reflexivity; try discriminate.
  all: match goal with H : Ok _ = Ok _ |- _ => injection H as <- end; eauto.
Qed.

Arguments record_audio : simpl never.

Ltac use_record_audio :=
  repeat match goal with
  | H : record_audio ?E ?w = mkOut _ _ _ |- _ =>
      let F := fresh "F" in
      pose proof (record_audio_frame E w) as F;
      cbv zeta in F; rewrite H in F;
      cbn -[lookup insert delete exn_str] in F;
      destruct F as (? & ? & ? & ?);
      clear H
  end.

(** ** The sections of main *)

Lemma record_section_skipped (E : Env) (inp : Inputs) (s : MainLocals * World) :
  record_clicked inp = false ->
  record_section E inp s = mkOut (Ok tt) s [].
Proof. intros H. unfold record_section. now rewrite H. Qed.

(** The record action never raises; it reads and writes neither [speed] nor
    the translation fields, and does not call [text_to_speech]. *)
Lemma record_section_frame (E : Env) (inp : Inputs) (fr : MainLocals) (w : World) :
  let o := record_section E inp (fr, w) in
  res o = Ok tt /\
  speed (fst (st o)) = speed fr /\
  translated_text (session (snd (st o))) = translated_text (session w) /\
  target_lang (session (snd (st o))) = target_lang (session w) /\
  attempts (log o) = [].
Proof.
  unfold record_section, record_try, record_except, record_finally,
    set_audio_file, set_input_text, set_detected_lang.
  unfold_monad.
  destruct (record_clicked inp); [|cbn; auto].
  run.
  all: use_record_audio; use_detect_language; simp_log.
  all: repeat split; simp_session; congruence.
Qed.

(** When the body of the record action raises, the handlers show the
    matching message and [input_text] is what it was. *)
Lemma record_section_failure (E : Env) (inp : Inputs) (w : World) (e : exn) :
  record_clicked inp = true ->
  res (record_try E (mkLocals None None, w)) = Raise e ->
  let o := record_section E inp (mkLocals None None, w) in
  input_text (session (snd (st o))) = input_text (session w) /\
  In (record_error_message e) (errors (log o)).
Proof.
  intros Hc. unfold record_section. rewrite Hc.
  unfold record_try, record_except, record_finally,
    set_audio_file, set_input_text, set_detected_lang.
  unfold_monad.
  run.
  all: use_record_audio; use_detect_language; simp_log.
  all: intros [= <-].
  all: split; [simp_session; congruence|].
  all: unfold record_error_message; rewrite ?in_app_iff;
    cbn -[exn_str]; eauto.
Qed.

(** When [record_audio] has returned, the record action leaves the file
    system as it found it: the recording is deleted on every path through
    the rest of the action. *)
Lemma record_section_cleans_up (E : Env) (inp : Inputs) (fr : MainLocals)
    (w : World) (p : string) :
  record_clicked inp = true ->
  res (record_audio E w) = Ok p ->
  let o := record_section E inp (fr, w) in
  fs (snd (st o)) = fs w /\
  temp_files (log o) = [p] /\
  fs w !! p = None.
Proof.
  intros Hc. unfold record_section. rewrite Hc.
  unfold record_try, record_except, record_finally,
    set_audio_file, set_input_text, set_detected_lang.
  unfold_monad.
  run.
  all: use_record_audio; use_detect_language; simp_log.
  all: intros [= <-].
  all: match goal with
       | H : forall q, Ok ?a = Ok q -> _ |- _ =>
           destruct (H a eq_refl) as (? & ? & [? ?])
       end.
  all: simp_del; simp_log.
  all: repeat split; congruence.
Qed.

Lemma display_section_frame (w : World) :
  let o := display_section w in
  res o = Ok tt /\ st o = w /\ attempts (log o) = [] /\
  temp_files (log o) = [] /\ errors (log o) = [].
Proof.
  unfold display_section. unfold_monad. run; eauto 10.
Qed.

(** The translation section never raises and touches neither the files nor
    [input_text]; it binds [speed] and registers a target language exactly
    when there is an input text. *)
Lemma translation_section_frame (E : Env) (inp : Inputs) (fr : MainLocals) (w : World) :
  let o := translation_section E inp (fr, w) in
  res o = Ok tt /\
  fs (snd (st o)) = fs w /\
  input_text (session (snd (st o))) = input_text (session w) /\
  attempts (log o) = [] /\ temp_files (log o) = [] /\
  (is_truthy (input_text (session w)) = true ->
     speed (fst (st o)) = Some (slider_value inp) /\
     target_lang (session (snd (st o))) <> None) /\
  (is_truthy (input_text (session w)) = false -> st o = (fr, w) /\ log o = []).
Proof.
  unfold translation_section, selectbox, set_speed, set_translated_text,
    set_target_lang, LANGUAGES.
  unfold_monad. run.
  all: repeat split; try reflexivity; try discriminate; try congruence.
  all: intros _; split; congruence.
Qed.

(** A failed translation call: the message is shown and [translated_text]
    keeps its value. *)
Lemma translation_section_failure (E : Env) (inp : Inputs) (fr : MainLocals)
    (w : World) (text : string) (tl : string * string) (e : exn) :
  translate_clicked inp = true ->
  input_text (session w) = Some text ->
  truthy text = true ->
  res (selectbox LANGUAGES w) = Ok (Some tl) ->
  translate E (clock w) text (fst tl) "auto" = Raise e ->
  let o := translation_section E inp (fr, w) in
  translated_text (session (snd (st o))) = translated_text (session w) /\
  errors (log o) = ["Translation error: " +:+ exn_str e].
Proof.
  intros Hc Hi Ht Hs He.
  unfold translation_section, selectbox, set_speed, set_translated_text,
    set_target_lang, LANGUAGES in *.
  unfold_monad. cbn -[exn_str] in *. rewrite Hi. cbn -[exn_str]. rewrite Ht, Hc.
  destruct (target_lang (session w)) as [tl'|] eqn:Htl; cbn -[exn_str] in *;
    injection Hs as <-; cbn -[exn_str] in *;
    rewrite Htl; cbn -[exn_str]; rewrite He; cbn -[exn_str];
    rewrite ?Htl; auto.
Qed.

(** The playback section changes neither the locals, the session nor the
    files; it either completes or stops at the read of an unbound [speed],
    in which case [text_to_speech] has not been called. *)
Lemma playback_section_frame (E : Env) (fr : MainLocals) (w : World) :
  let o := playback_section E (fr, w) in
  fst (st o) = fr /\
  session (snd (st o)) = session w /\
  fs (snd (st o)) = fs w /\
  (forall p, In p (temp_files (log o)) -> fs w !! p = None) /\
  (res o = Ok tt \/ (res o = Raise (UnboundLocalError "speed") /\ speed fr = None)) /\
  (speed fr = None -> attempts (log o) = []).
Proof.
  unfold playback_section, read_speed. unfold_monad. run.
  all: use_text_to_speech; simp_log.
  all: repeat split; eauto; try congruence.
  all: try (intros p []; fail).
  all: intros p Hp; rewrite ?in_app_iff in Hp; destruct Hp as [Hp|Hp]; eauto.
  all: match goal with H : fs _ = fs ?b |- fs ?b !! _ = None => rewrite <- H end; eauto.
Qed.

(** With [speed] bound and a translation to play: one attempt in the target
    language, and exactly one more, in English, when the first returned
    [False]. *)
Lemma playback_section_attempts (E : Env) (fr : MainLocals) (w : World)
    (t : string) (v : float) :
  translated_text (session w) = Some t ->
  truthy t = true ->
  speed fr = Some v ->
  let o := playback_section E (fr, w) in
  let c := target_code (session w) in
  res o = Ok tt /\
  (res (text_to_speech E t c v w) = Ok true -> attempts (log o) = [(t, c, v)]) /\
  (res (text_to_speech E t c v w) = Ok false ->
     attempts (log o) = [(t, c, v); (t, "en", v)] /\
     In (st_warning "Couldn't play audio in selected language. Trying English...")
        (log o)).
Proof.
  intros Ht Htr Hv. unfold playback_section, read_speed. unfold_monad.
  cbn -[lookup insert delete exn_str]. rewrite Ht, Htr.
  cbn -[lookup insert delete exn_str]. rewrite Hv.
  cbn -[lookup insert delete exn_str].
  destruct (text_to_speech E t (target_code (session w)) v w) as [r1 w1 l1] eqn:H1.
  pose proof (text_to_speech_frame E t (target_code (session w)) v w) as F1.
  cbv zeta in F1. rewrite H1 in F1. cbn in F1.
  destruct F1 as ([ok1 ->] & _ & _ & _ & Ha1).
  destruct ok1; cbn -[lookup insert delete exn_str].
  - autorewrite with trace. rewrite Ha1.
    split; [reflexivity|]. split; [intros _; reflexivity | discriminate].
  - destruct (text_to_speech E t "en" v w1) as [r2 w2 l2] eqn:H2.
    pose proof (text_to_speech_frame E t "en" v w1) as F2.
    cbv zeta in F2. rewrite H2 in F2. cbn in F2.
    destruct F2 as ([ok2 ->] & _ & _ & _ & Ha2).
    cbn. autorewrite with trace. cbn. rewrite Ha1, Ha2.
    split; [reflexivity|]. split; [discriminate|].
    intros _. split; [reflexivity|].
    right. right. apply in_or_app. right. now left.
Qed.

(** ** main as the sequence of its sections *)

Arguments record_section : simpl never.
Arguments display_section : simpl never.
Arguments translation_section : simpl never.
Arguments playback_section : simpl never.

Lemma main_sections (E : Env) (inp : Inputs) (w : World) :
  let o1 := record_section E inp (mkLocals None None, w) in
  let o2 := display_section (snd (st o1)) in
  let o3 := translation_section E inp (st o1) in
  let o4 := playback_section E (st o3) in
  main E inp w =
    mkOut (res o4) (snd (st o4))
      (st_title "Voice Language Translator"
       :: st_write "Record your voice, detect the language, and translate to another language"
       :: log o1 ++ log o2 ++ log o3 ++ log o4).
Proof.
  cbv zeta. unfold main. rewrite !emit_bind. unfold call, bind, in_world.
  destruct (record_section_frame E inp (mkLocals None None) w) as (R1 & _).
  destruct (record_section E inp (mkLocals None None, w)) as [r1 [fr1 w1] l1].
  cbn in R1. subst r1. cbn.
  destruct (display_section_frame w1) as (R2 & S2 & _).
  destruct (display_section w1) as [r2 w2 l2]. cbn in R2, S2. subst r2 w2. cbn.
  destruct (translation_section_frame E inp fr1 w1) as (R3 & _).
  destruct (translation_section E inp (fr1, w1)) as [r3 s3 l3]. cbn in R3. subst r3.
  cbn. destruct (playback_section E s3) as [r4 s4 l4]. cbn.
  now rewrite <- ?app_assoc.
Qed.

(** With [speed] unbound and a translation to play, the playback section
    stops at line 193 before calling [text_to_speech]. *)
Lemma playback_section_unbound_speed (E : Env) (fr : MainLocals) (w : World) :
  speed fr = None ->
  is_truthy (translated_text (session w)) = true ->
  let o := playback_section E (fr, w) in
  res o = Raise (UnboundLocalError "speed") /\ attempts (log o) = [].
Proof.
  intros Hv Ht. unfold playback_section, read_speed, is_truthy in *. unfold_monad.
  cbn. destruct (translated_text (session w)) as [t|]; [|discriminate].
  rewrite Ht. cbn. rewrite Hv. cbn. auto.
Qed.

(** ** The record action *)

(** A microphone timeout makes the body of the record action raise. *)
Lemma listen_timeout_raises (E : Env) (fr : MainLocals) (w : World) (e : exn) :
  sr_Microphone E (clock w) = Ok tt ->
  recognizer_listen E (S (clock w)) = Raise e ->
  res (record_try E (fr, w)) = Raise e.
Proof.
  intros Hm Hl. unfold record_try, record_audio. unfold_monad.
  cbn. rewrite Hm. cbn. rewrite Hl. reflexivity.
Qed.

(** So does a failure of the recogniser on the recorded audio. *)
Lemma recognition_failure_raises (E : Env) (fr : MainLocals) (w w1 : World)
    (p : string) (l1 : list event) (wav audio_data : bytes) (e : exn) :
  record_audio E w = mkOut (Ok p) w1 l1 ->
  fs w1 !! p = Some wav ->
  recognizer_record E (clock w1) wav = Ok audio_data ->
  recognize_google E (S (clock w1)) audio_data = Raise e ->
  res (record_try E (fr, w)) = Raise e.
Proof.
  intros Hr Hf Ha Hg. unfold record_try, set_audio_file. unfold_monad.
  cbn. rewrite Hr. cbn. rewrite Hf. cbn. rewrite Ha. cbn. rewrite Hg. reflexivity.
Qed.

(** C7. When the record action fails - the body of its [try] raises, be it
    the microphone timing out, the recogniser not understanding the audio,
    or the recognition service failing - [input_text] keeps the value it had
    (unset if it was unset) and the message for that exception is shown. *)
Theorem record_failure_keeps_input_text (E : Env) (inp : Inputs) (w : World) (e : exn) :
  record_clicked inp = true ->
  res (record_try E (mkLocals None None, w)) = Raise e ->
  let o := main E inp w in
  input_text (session (st o)) = input_text (session w) /\
  In (record_error_message e) (errors (log o)).
Proof.
  intros Hc He. cbv zeta. rewrite main_sections. cbn.
  destruct (record_section_failure E inp w e Hc He) as [Hi Herr].
  destruct (record_section E inp (mkLocals None None, w)) as [r1 [fr1 w1] l1].
  cbn in *.
  destruct (translation_section_frame E inp fr1 w1) as (_ & _ & Hi3 & _).
  destruct (translation_section E inp (fr1, w1)) as [r3 [fr3 w3] l3]. cbn in *.
  destruct (playback_section_frame E fr3 w3) as (_ & Hs4 & _).
  split.
  - rewrite Hs4. congruence.
  - rewrite errors_app. apply in_or_app. now left.
Qed.

Lemma record_failure_keeps_input_text_witness :
  (input_text (session (st (main silent_room (mkInputs true false 1) w0))) = None /\
   In "Error: listening timed out while waiting for phrase to start"
      (errors (log (main silent_room (mkInputs true false 1) w0)))) /\
  (input_text (session (st (main garbled (mkInputs true false 1) w0))) = None /\
   In "Could not understand audio. Please try again."
      (errors (log (main garbled (mkInputs true false 1) w0)))) /\
  (input_text (session (st (main offline_recognizer (mkInputs true false 1) w0))) = None /\
   In "Speech recognition service error: recognition connection failed"
      (errors (log (main offline_recognizer (mkInputs true false 1) w0)))).
Proof.
  split; [|split].
  - apply (record_failure_keeps_input_text silent_room (mkInputs true false 1) w0
             (WaitTimeoutError "listening timed out while waiting for phrase to start"));
      reflexivity.
  - apply (record_failure_keeps_input_text garbled (mkInputs true false 1) w0
             UnknownValueError); reflexivity.
  - apply (record_failure_keeps_input_text offline_recognizer (mkInputs true false 1) w0
             (RequestError "recognition connection failed")); reflexivity.
Defined.

(** ** The translate action *)

(** C6. When the translation call fails in a run where Translate was
    clicked, [translated_text] keeps the value it had (stale or unset) and a
    translation error is shown. *)
Theorem translation_failure_keeps_translated_text (E : Env) (inp : Inputs) (w : World)
    (text : string) (tl : string * string) (e : exn) :
  record_clicked inp = false ->
  translate_clicked inp = true ->
  input_text (session w) = Some text ->
  truthy text = true ->
  res (selectbox LANGUAGES w) = Ok (Some tl) ->
  translate E (clock w) text (fst tl) "auto" = Raise e ->
  let o := main E inp w in
  translated_text (session (st o)) = translated_text (session w) /\
  In ("Translation error: " +:+ exn_str e) (errors (log o)).
Proof.
  intros Hr Hc Hi Ht Hs He. cbv zeta. rewrite main_sections.
  rewrite (record_section_skipped E inp _ Hr). cbn -[exn_str].
  destruct (translation_section_failure E inp (mkLocals None None) w text tl e
              Hc Hi Ht Hs He) as [Htt Herr].
  destruct (translation_section E inp (mkLocals None None, w)) as [r3 [fr3 w3] l3].
  cbn -[exn_str] in *.
  destruct (playback_section_frame E fr3 w3) as (_ & Hs4 & _).
  split.
  - rewrite Hs4. exact Htt.
  - rewrite !errors_app, Herr. apply in_or_app. right. apply in_or_app. left. now left.
Qed.

Lemma translation_failure_keeps_translated_text_witness :
  translated_text (session (st (main offline_translator (mkInputs false true 1)
                                     (mkWorld translated_session ∅ 0))))
    = Some "Hola, como estas?" /\
  In "Translation error: HTTP Error 503"
     (errors (log (main offline_translator (mkInputs false true 1)
                        (mkWorld translated_session ∅ 0)))).
Proof.
  apply (translation_failure_keeps_translated_text offline_translator
           (mkInputs false true 1) (mkWorld translated_session ∅ 0)
           "Hello, how are you?" ("es", "Spanish") (OtherError "HTTP Error 503"));
    reflexivity.
Defined.

(** ** Temporary files *)

(** C3 (as stated, refuted).  The file [record_audio] creates outlives the
    call: it is created with [delete=False] and its path is the return
    value, so on the success path it still exists when [record_audio] has
    returned. *)
Lemma record_audio_file_outlives_call :
  exists p,
    res (record_audio studio w0) = Ok p /\
    In p (temp_files (log (record_audio studio w0))) /\
    fs (st (record_audio studio w0)) !! p <> None.
Proof.
  exists "/tmp/tmpk3.wav". vm_compute. repeat split; [now left | discriminate].
Qed.

(** C3 (amended).  [text_to_speech] deletes the temporary file it creates
    before it returns, on every exit path: it leaves the file system as it
    found it.  The file created by [record_audio] is handed to the caller,
    and the record action of [main] deletes it on every exit path once
    [record_audio] has returned: after such a run of [main] every temporary
    file created during the run is gone. *)
Theorem temp_files_removed (E : Env) (t c : string) (s : float) (inp : Inputs)
    (w : World) :
  (let o := text_to_speech E t c s w in
   fs (st o) = fs w /\
   forall p, In p (temp_files (log o)) -> fs (st o) !! p = None) /\
  ((record_clicked inp = true -> exists p, res (record_audio E w) = Ok p) ->
   let o := main E inp w in
   fs (st o) = fs w /\
   forall p, In p (temp_files (log o)) -> fs (st o) !! p = None).
Proof.
  split.
  - cbv zeta. destruct (text_to_speech_frame E t c s w) as (_ & _ & Hfs & Htmp & _).
    split; [exact Hfs|]. intros p Hp. rewrite Hfs. now apply Htmp.
  - intros Hrec. cbv zeta. rewrite main_sections. cbn.
    assert (fs (snd (st (record_section E inp (mkLocals None None, w)))) = fs w /\
            forall p, In p (temp_files (log (record_section E inp (mkLocals None None, w)))) ->
                      fs w !! p = None) as [Hfs1 Htmp1].
    { destruct (record_clicked inp) eqn:Hc.
      - destruct (Hrec eq_refl) as [p Hp].
        destruct (record_section_cleans_up E inp (mkLocals None None) w p Hc Hp)
          as (Hfs & Htmp & Hfresh).
        split; [exact Hfs|]. rewrite Htmp. intros q [<-|[]]. exact Hfresh.
      - rewrite (record_section_skipped E inp _ Hc). cbn. split; [reflexivity | tauto]. }
    destruct (record_section E inp (mkLocals None None, w)) as [r1 [fr1 w1] l1].
    cbn in *.
    destruct (display_section_frame w1) as (_ & _ & _ & Htmp2 & _).
    destruct (translation_section_frame E inp fr1 w1) as (_ & Hfs3 & _ & _ & Htmp3 & _).
    destruct (translation_section E inp (fr1, w1)) as [r3 [fr3 w3] l3]. cbn in *.
    destruct (playback_section_frame E fr3 w3) as (_ & _ & Hfs4 & Htmp4 & _).
    assert (fs (snd (st (playback_section E (fr3, w3)))) = fs w) as Hfs by congruence.
    split; [exact Hfs|].
    intros p Hp. rewrite Hfs. rewrite !temp_files_app, Htmp2, Htmp3 in Hp.
    cbn in Hp. apply in_app_or in Hp. destruct Hp as [Hp|Hp]; [now apply Htmp1|].
    apply Htmp4 in Hp. congruence.
Qed.

Lemma temp_files_removed_witness :
  fs (st (main studio (mkInputs true false 1) w0)) = fs w0.
Proof.
  apply (proj2 (temp_files_removed studio "Hola" "es" 1 (mkInputs true false 1) w0)).
  intros _. exists "/tmp/tmpk3.wav". reflexivity.
Defined.

(** The path left out of the statement above: when [record_audio] fails
    after it has created its file (here while converting the recording),
    nobody knows the path, and the file stays. *)
Remark record_audio_failure_after_creation :
  fs (st (main (with_get_wav_data (fun _ _ => Raise (OtherError "conversion failed")) studio)
               (mkInputs true false 1) w0)) !! "/tmp/tmpk3.wav" = Some [].
Proof. reflexivity. Qed.

(** ** Synthesis and its fallback *)

(** C2 (as stated, refuted).  Nothing in [text_to_speech] looks at the bytes
    the engine saved: when the engine saves an empty file without raising,
    the empty audio is played and the call returns [True]. *)
Lemma text_to_speech_plays_empty_audio :
  res (text_to_speech mute_engine "Hola, como estas?" "es" 1 w0) = Ok true /\
  audios (log (text_to_speech mute_engine "Hola, como estas?" "es" 1 w0)) = [[]].
Proof. vm_compute. split; reflexivity. Qed.

(** What [text_to_speech] plays when it returns [True]: the temporary file
    was created under a free name, the engine was constructed and saved the
    bytes [b] without raising, and the clip is [b] at speed 1.0 and
    otherwise the codec's re-encoding of the sped-up [b] - or [b] itself when
    a step of the codec fails. *)
Lemma text_to_speech_played (E : Env) (t c : string) (s : float) (w : World) :
  let o := text_to_speech E t c s w in
  let lang := dict_get TTS_LANGUAGE_MAPPING c "en" in
  let k := S (S (S (clock w))) in
  res o = Ok true ->
  exists p b,
    mkstemp E (clock w) ".mp3" = Ok p /\
    fs w !! p = None /\
    gTTS E (S (clock w)) t lang = Ok tt /\
    gTTS_save E (S (S (clock w))) t lang = (b, None) /\
    audios (log o) =
      [if speed_ne_1 s
       then match from_file E k b with
            | Ok a =>
                match speedup E (S k) a s with
                | Ok a' =>
                    match export E (S (S k)) a' with
                    | Ok b' => b'
                    | Raise _ => b
                    end
                | Raise _ => b
                end
            | Raise _ => b
            end
       else b].
Proof.
  cbv zeta. unfold_tts. unfold adjust_speed, adjust_speed_body. unfold_monad.
  cbn -[lookup insert delete exn_str].
  destruct (mkstemp E (clock w) ".mp3") as [p|e] eqn:Hmk;
    cbn -[lookup insert delete exn_str]; [|solve [run]].
  destruct (fs w !! p) as [data|] eqn:Hfresh;
    cbn -[lookup insert delete exn_str]; [solve [run]|].
  destruct (gTTS E (S (clock w)) t (dict_get TTS_LANGUAGE_MAPPING c "en"))
    as [[]|e] eqn:Hnew; cbn -[lookup insert delete exn_str]; [|solve [run]].
  destruct (gTTS_save E (S (S (clock w))) t (dict_get TTS_LANGUAGE_MAPPING c "en"))
    as [b [e|]] eqn:Hsave; cbn -[lookup insert delete exn_str]; [solve [run]|].
  intros Hres. exists p, b. repeat split; auto.
  revert Hres. run; reflexivity.
Qed.

(** C2 (amended).  [text_to_speech] never raises: either it plays one audio
    clip and returns [True], or it shows a text-to-speech error, plays
    nothing and returns [False].  The clip is what the engine saved, with no
    check that it is not empty: exactly those bytes at speed 1.0, and
    otherwise their speed-adjusted re-encoding (the bytes themselves when the
    adjustment fails).  When the attempt in the target language returns
    [False], [main] shows a warning and makes exactly one more attempt, in
    English; whatever that one returns, there is no third. *)
Theorem synthesize_outcome_and_retry (E : Env) (t c : string) (s : float)
    (fr : MainLocals) (w : World) :
  (let o := text_to_speech E t c s w in
   let lang := dict_get TTS_LANGUAGE_MAPPING c "en" in
   let k := S (S (S (clock w))) in
   (res o = Ok true /\
    exists p b,
      mkstemp E (clock w) ".mp3" = Ok p /\
      fs w !! p = None /\
      gTTS E (S (clock w)) t lang = Ok tt /\
      gTTS_save E (S (S (clock w))) t lang = (b, None) /\
      audios (log o) =
        [if speed_ne_1 s
         then match from_file E k b with
              | Ok a =>
                  match speedup E (S k) a s with
                  | Ok a' =>
                      match export E (S (S k)) a' with
                      | Ok b' => b'
                      | Raise _ => b
                      end
                  | Raise _ => b
                  end
              | Raise _ => b
              end
         else b]) \/
   (res o = Ok false /\ audios (log o) = [] /\
    exists e, In ("Text-to-speech error: " +:+ exn_str e) (errors (log o)))) /\
  (translated_text (session w) = Some t ->
   truthy t = true ->
   speed fr = Some s ->
   let o := playback_section E (fr, w) in
   let code := target_code (session w) in
   res o = Ok tt /\
   (res (text_to_speech E t code s w) = Ok true ->
      attempts (log o) = [(t, code, s)]) /\
   (res (text_to_speech E t code s w) = Ok false ->
      attempts (log o) = [(t, code, s); (t, "en", s)] /\
      In (st_warning "Couldn't play audio in selected language. Trying English...")
         (log o))).
Proof.
  split.
  - cbv zeta.
    destruct (text_to_speech_outcome E t c s w) as [[Hr _] | Hfalse].
    + left. split; [exact Hr|]. now apply text_to_speech_played.
    + now right.
  - apply playback_section_attempts.
Qed.

Lemma synthesize_outcome_and_retry_witness :
  attempts (log (playback_section english_only_engine
                   (mkLocals None (Some 1%float), mkWorld translated_session ∅ 0)))
    = [("Hola, como estas?", "es", 1%float); ("Hola, como estas?", "en", 1%float)].
Proof.
  apply (proj2 (synthesize_outcome_and_retry english_only_engine
                  "Hola, como estas?" "es" 1 (mkLocals None (Some 1%float))
                  (mkWorld translated_session ∅ 0)));
    reflexivity.
Defined.

(** A registered code is mapped to itself. *)
Lemma registered_voice (c : string) :
  In c (keys TTS_LANGUAGE_MAPPING) -> dict_get TTS_LANGUAGE_MAPPING c "en" = c.
Proof.
  cbn. intros H.
  repeat (destruct H as [<-|H]; [reflexivity|]). destruct H.
Qed.

(** ** Playback without a selected target language *)



(** Within whole runs of [main] the default stays a precaution: the block
    that binds [speed] is the one that renders the selector, so whenever
    [text_to_speech] is called a target language is in the session. *)
Lemma main_attempt_needs_selection (E : Env) (inp : Inputs) (w : World) :
  attempts (log (main E inp w)) <> [] ->
  target_lang (session (st (main E inp w))) <> None.
Proof.
  rewrite main_sections. cbn.
  destruct (record_section_frame E inp (mkLocals None None) w) as (_ & Hv1 & _ & _ & Ha1).
  destruct (record_section E inp (mkLocals None None, w)) as [r1 [fr1 w1] l1].
  cbn in *.
  destruct (display_section_frame w1) as (_ & _ & Ha2 & _).
  destruct (translation_section_frame E inp fr1 w1)
    as (_ & _ & _ & Ha3 & _ & Hyes & Hno).
  destruct (translation_section E inp (fr1, w1)) as [r3 [fr3 w3] l3]. cbn in *.
  destruct (playback_section_frame E fr3 w3) as (_ & Hs4 & _ & _ & _ & Ha4).
  rewrite !attempts_app, Ha1, Ha2, Ha3. cbn. intros Hne. rewrite Hs4.
  destruct (is_truthy (input_text (session w1))) eqn:Hin.
  - now apply Hyes.
  - destruct (Hno eq_refl) as [[= -> ->] _]. exfalso. apply Hne, Ha4. exact Hv1.
Qed.

(** A run can stop at the unbound [speed]: record a sentence, translate it,
    record again and let the recogniser return an empty transcript.  The
    third run has [input_text] empty and the translation still in the
    session, and stops at line 193. *)
Example empty_transcript_after_translation :
  let w1 := st (main mumbling (mkInputs true false 1) w0) in
  let w2 := st (main mumbling (mkInputs false true 1) w1) in
  let o3 := main mumbling (mkInputs true false 1) w2 in
  res (main mumbling (mkInputs true false 1) w0) = Ok tt /\
  res (main mumbling (mkInputs false true 1) w1) = Ok tt /\
  res o3 = Raise (UnboundLocalError "speed") /\
  input_text (session (st o3)) = Some EmptyString /\
  translated_text (session (st o3)) = Some "Hola, como estas?".
Proof. vm_compute. repeat split; reflexivity. Qed.

(** * Further properties of the code *)

Lemma translations_app (l1 l2 : list event) :
  translations (l1 ++ l2) = translations l1 ++ translations l2.
Proof.
  induction l1 as [|ev l1 IH]; [reflexivity|].
  destruct ev as [| | | | | | | |q| |]; cbn; try congruence.
  destruct q; cbn; congruence.
Qed.

Lemma successes_app (l1 l2 : list event) :
  successes (l1 ++ l2) = successes l1 ++ successes l2.
Proof. induction l1 as [|[] l1 IH]; cbn; congruence. Qed.

#[global] Hint Rewrite translations_app successes_app : trace.

(** ** record_audio *)

(** X1. Whenever [record_audio] returns a path, that path named no file
    before the call, the file now holds exactly the WAV data of the audio
    that was captured, no other file was touched and the session is as it
    was. *)
Theorem record_audio_result (E : Env) (w : World) (p : string) :
  res (record_audio E w) = Ok p ->
  let o := record_audio E w in
  fs w !! p = None /\
  session (st o) = session w /\
  temp_files (log o) = [p] /\
  exists audio wav,
    recognizer_listen E (S (clock w)) = Ok audio /\
    get_wav_data E (S (S (S (clock w)))) audio = Ok wav /\
    fs (st o) = <[p := wav]> (fs w).
Proof.
  unfold record_audio, NamedTemporaryFile. unfold_monad. run.
  intros [= <-]. repeat split; eauto.
Qed.

Lemma record_audio_result_witness :
  fs (st (record_audio studio w0)) =
    <["/tmp/tmpk3.wav" := [Byte.x52; Byte.x01; Byte.x02]]> (fs w0).
Proof.
  destruct (record_audio_result studio w0 "/tmp/tmpk3.wav" eq_refl)
    as (_ & _ & _ & audio & wav & Ha & Hw & Hfs).
  injection Ha as <-. injection Hw as <-. exact Hfs.
Defined.

(** X2. When the microphone cannot be opened or listening fails (a timeout,
    say), [record_audio] raises that exception without having created any
    file. *)
Theorem record_audio_capture_failure (E : Env) (w : World) (e : exn) :
  sr_Microphone E (clock w) = Raise e \/
  (sr_Microphone E (clock w) = Ok tt /\ recognizer_listen E (S (clock w)) = Raise e) ->
  let o := record_audio E w in
  res o = Raise e /\ fs (st o) = fs w /\ temp_files (log o) = [] /\
  session (st o) = session w.
Proof.
  unfold record_audio. unfold_monad. cbn.
  intros [Hm | [Hm Hl]]; rewrite Hm; cbn; [|rewrite Hl; cbn]; auto.
Qed.

Lemma record_audio_capture_failure_witness :
  res (record_audio silent_room w0) =
    Raise (WaitTimeoutError "listening timed out while waiting for phrase to start") /\
  fs (st (record_audio silent_room w0)) = fs w0.
Proof.
  destruct (record_audio_capture_failure silent_room w0
              (WaitTimeoutError "listening timed out while waiting for phrase to start"))
    as (Hr & Hfs & _).
  - right. split; reflexivity.
  - split; assumption.
Defined.

(** ** adjust_speed *)

(** X3. [adjust_speed] shows an error exactly when one of its steps
    (decoding, speed change, re-encoding) fails; in every case it leaves the
    session and the files alone. *)
Theorem adjust_speed_error_iff (E : Env) (b : bytes) (s : float) (w : World) :
  let o := adjust_speed E b s w in
  (errors (log o) <> [] <-> exists e, adjust_step_fails E b s (clock w) e) /\
  session (st o) = session w /\ fs (st o) = fs w.
Proof.
  cbv zeta. split; [|now destruct (adjust_speed_frame E b s w) as (_ & ? & ? & _)].
  split.
  - unfold adjust_speed, adjust_speed_body. unfold_monad. run.
    all: intros H; try (exfalso; apply H; reflexivity).
    + exists e. eapply encode_fails_after_speed_change; eauto.
    + exists e. eapply speed_change_fails; eauto.
    + exists e. eapply encode_fails; eauto.
    + exists e. now apply decode_fails.
  - intros [e He] Hnil.
    destruct (adjust_speed_handles E b s w e (adjust_speed_body_raises E b s w e He))
      as [_ Hin].
    rewrite Hnil in Hin. destruct Hin.
Qed.

(** ** text_to_speech *)

(** Run the model one known answer further. *)
Ltac exec H :=
  cbn -[lookup insert delete exn_str]; rewrite ?H;
  repeat progress (cbn -[lookup insert delete exn_str]; simp_fs).

(** X4. Speed adjustment is best effort inside [text_to_speech] too: when
    the engine has saved its audio and a step of the codec then fails, the
    audio is played as the engine saved it, the adjustment error is shown,
    and the call still returns [True]. *)
Theorem text_to_speech_plays_unadjusted (E : Env) (t c : string) (s : float)
    (w : World) (p : string) (b : bytes) (e : exn) :
  let lang := dict_get TTS_LANGUAGE_MAPPING c "en" in
  mkstemp E (clock w) ".mp3" = Ok p ->
  fs w !! p = None ->
  gTTS E (S (clock w)) t lang = Ok tt ->
  gTTS_save E (S (S (clock w))) t lang = (b, None) ->
  speed_ne_1 s = true ->
  adjust_step_fails E b s (S (S (S (clock w)))) e ->
  let o := text_to_speech E t c s w in
  res o = Ok true /\
  audios (log o) = [b] /\
  In ("Speed adjustment error: " +:+ exn_str e) (errors (log o)) /\
  fs (st o) = fs w.
Proof.
  cbv zeta. intros Hmk Hfresh Hnew Hsave Hs Hfail.
  unfold_tts. unfold_monad.
  exec Hmk. exec Hfresh. exec Hnew. exec Hsave. exec Hs.
  set (w' := {| session := session w; fs := <[p:=b]> (fs w);
                clock := S (S (S (clock w))) |}).
  pose proof (adjust_speed_handles E b s w' e
                (adjust_speed_body_raises E b s w' e Hfail)) as [Hres Herr].
  destruct (adjust_speed_frame E b s w') as (_ & _ & Hfs & _ & _ & Haud & _).
  destruct (adjust_speed E b s w') as [r1 w1 l1]. cbn in *. subst r1.
  subst w'. cbn -[lookup insert delete exn_str] in Hfs.
  do 3 (cbn -[lookup insert delete exn_str]; rewrite ?Hfs; simp_fs).
  autorewrite with trace. cbn -[lookup insert delete exn_str].
  rewrite Haud. repeat split.
  - exact Herr.
  - now apply delete_id.
Qed.

Lemma text_to_speech_plays_unadjusted_witness :
  res (text_to_speech broken_codec "Hola" "es" 1.5 w0) = Ok true /\
  audios (log (text_to_speech broken_codec "Hola" "es" 1.5 w0)) = [mp3].
Proof.
  destruct (text_to_speech_plays_unadjusted broken_codec "Hola" "es" 1.5 w0
              "/tmp/tmpk3.mp3" mp3 (OtherError "Decoding failed"))
    as (Hr & Ha & _); try reflexivity.
  - apply decode_fails. reflexivity.
  - split; assumption.
Defined.

(** X5. When no temporary file can be created because tempfile raises
    (no usable directory, no space, ...), [text_to_speech] gives up before
    contacting the engine: it shows exactly that error, plays nothing,
    returns [False] and leaves the files as they were. *)
Theorem text_to_speech_without_temp_file (E : Env) (t c : string) (s : float)
    (w : World) (e : exn) :
  mkstemp E (clock w) ".mp3" = Raise e ->
  let o := text_to_speech E t c s w in
  res o = Ok false /\
  voices (log o) = [] /\
  audios (log o) = [] /\
  errors (log o) = ["Text-to-speech error: " +:+ exn_str e] /\
  temp_files (log o) = [] /\
  fs (st o) = fs w.
Proof.
  cbv zeta. unfold_tts. unfold_monad. intros Hmk. exec Hmk. auto 10.
Qed.

Lemma text_to_speech_without_temp_file_witness :
  res (text_to_speech no_tmp_dir "Hola" "es" 1 w0) = Ok false /\
  voices (log (text_to_speech no_tmp_dir "Hola" "es" 1 w0)) = [].
Proof.
  destruct (text_to_speech_without_temp_file no_tmp_dir "Hola" "es" 1 w0
              (OtherError "No usable temporary directory found"))
    as (Hr & Hv & _).
  - reflexivity.
  - split; assumption.
Defined.

(** X6. When the engine fails - its constructor raises, or saving raises,
    possibly after writing part of the file - [text_to_speech] shows exactly
    the message of that exception, plays nothing, does not call the codec,
    returns [False], and has removed its temporary file. *)
Theorem text_to_speech_engine_failure (E : Env) (t c : string) (s : float)
    (w : World) (p : string) (e : exn) :
  let lang := dict_get TTS_LANGUAGE_MAPPING c "en" in
  mkstemp E (clock w) ".mp3" = Ok p ->
  fs w !! p = None ->
  gTTS E (S (clock w)) t lang = Raise e \/
  (gTTS E (S (clock w)) t lang = Ok tt /\
   snd (gTTS_save E (S (S (clock w))) t lang) = Some e) ->
  let o := text_to_speech E t c s w in
  res o = Ok false /\
  audios (log o) = [] /\
  codec_calls (log o) = [] /\
  errors (log o) = ["Text-to-speech error: " +:+ exn_str e] /\
  fs (st o) = fs w.
Proof.
  cbv zeta. intros Hmk Hfresh Hfail. unfold_tts. unfold_monad.
  exec Hmk. exec Hfresh.
  destruct Hfail as [Hnew | [Hnew Hsave]].
  - exec Hnew. repeat split; auto. now apply delete_id.
  - exec Hnew. exec Hsave. repeat split; auto. now apply delete_id.
Qed.

Lemma text_to_speech_engine_failure_witness :
  res (text_to_speech english_only_engine "Hola" "es" 1 w0) = Ok false /\
  errors (log (text_to_speech english_only_engine "Hola" "es" 1 w0)) =
    ["Text-to-speech error: Language not supported: es"].
Proof.
  destruct (text_to_speech_engine_failure english_only_engine "Hola" "es" 1 w0
              "/tmp/tmpk3.mp3" (OtherError "Language not supported: es"))
    as (Hr & _ & _ & He & _); try reflexivity.
  - left. reflexivity.
  - split; assumption.
Defined.

(** X7. The two registries agree: every language the selector offers has a
    voice of its own, so for a code taken from [LANGUAGES] the engine is only
    ever constructed with that very code and the fallback to [en] is not
    taken. *)
Theorem offered_language_has_its_voice (E : Env) (t c : string) (s : float) (w : World) :
  In c (keys LANGUAGES) ->
  voices (log (text_to_speech E t c s w)) = [] \/
  voices (log (text_to_speech E t c s w)) = [(t, c)].
Proof.
  intros Hc.
  assert (dict_get TTS_LANGUAGE_MAPPING c "en" = c) as Hv.
  { cbn in Hc. repeat (destruct Hc as [<-|Hc]; [reflexivity|]). destruct Hc. }
  destruct (text_to_speech_voice_requests E t c s w) as [Hreq _].
  now rewrite Hv in Hreq.
Qed.

Lemma offered_language_has_its_voice_witness :
  voices (log (text_to_speech studio "Vanakkam" "ta" 1 w0)) = [] \/
  voices (log (text_to_speech studio "Vanakkam" "ta" 1 w0)) = [("Vanakkam", "ta")].
Proof.
  apply (offered_language_has_its_voice studio "Vanakkam" "ta" 1 w0).
  vm_compute. tauto.
Defined.

(** X16. When the speed is not 1.0 and the engine and every step of the
    codec succeed, what [text_to_speech] plays is the codec's re-encoding of
    the sped-up engine audio; no error is shown, the codec was called once
    for each step, and the temporary file is gone. *)
Theorem text_to_speech_plays_adjusted (E : Env) (t c : string) (s : float)
    (w : World) (p : string) (b a a' b' : bytes) :
  let lang := dict_get TTS_LANGUAGE_MAPPING c "en" in
  mkstemp E (clock w) ".mp3" = Ok p ->
  fs w !! p = None ->
  gTTS E (S (clock w)) t lang = Ok tt ->
  gTTS_save E (S (S (clock w))) t lang = (b, None) ->
  speed_ne_1 s = true ->
  from_file E (S (S (S (clock w)))) b = Ok a ->
  speedup E (S (S (S (S (clock w))))) a s = Ok a' ->
  export E (S (S (S (S (S (clock w)))))) a' = Ok b' ->
  let o := text_to_speech E t c s w in
  res o = Ok true /\
  audios (log o) = [b'] /\
  errors (log o) = [] /\
  codec_calls (log o) = [q_from_file; q_speedup s; q_export] /\
  fs (st o) = fs w.
Proof.
  cbv zeta. intros Hmk Hfresh Hnew Hsave Hs Hdec Hsp Henc.
  unfold_tts. unfold adjust_speed, adjust_speed_body. unfold_monad.
  exec Hmk. exec Hfresh. exec Hnew. exec Hsave. exec Hs.
  exec Hdec. exec Hsp. exec Henc.
  repeat split; auto. now apply delete_id.
Qed.

Lemma text_to_speech_plays_adjusted_witness :
  res (text_to_speech studio "Hola" "es" 1.5 w0) = Ok true /\
  audios (log (text_to_speech studio "Hola" "es" 1.5 w0)) = [Byte.xff :: mp3].
Proof.
  destruct (text_to_speech_plays_adjusted studio "Hola" "es" 1.5 w0
              "/tmp/tmpk3.mp3" mp3 mp3 mp3 (Byte.xff :: mp3))
    as (Hr & Ha & _); try reflexivity.
  split; assumption.
Defined.

(** ** What the parts of main say to the translator and to the user *)

Lemma detect_language_result (E : Env) (text : string) (w : World) :
  res (detect_language E text w) =
    match detect E (clock w) text with
    | Ok code => Ok (Some code, dict_get LANGUAGES code code)
    | Raise _ => Ok (None, "Unknown")
    end /\
  translations (log (detect_language E text w)) = [] /\
  successes (log (detect_language E text w)) = [].
Proof.
  unfold detect_language. unfold_monad. cbn -[dict_get].
  destruct (detect E (clock w) text); cbn -[dict_get]; auto.
Qed.

Lemma adjust_speed_quiet (E : Env) (b : bytes) (s : float) (w : World) :
  translations (log (adjust_speed E b s w)) = [] /\
  successes (log (adjust_speed E b s w)) = [].
Proof.
  unfold adjust_speed, adjust_speed_body. unfold_monad. run; auto.
Qed.

Lemma text_to_speech_quiet (E : Env) (t c : string) (s : float) (w : World) :
  translations (log (text_to_speech E t c s w)) = [] /\
  successes (log (text_to_speech E t c s w)) = [].
Proof.
  unfold_tts. unfold_monad. run.
  all: repeat match goal with
         | H : adjust_speed ?E ?b ?s ?w = mkOut _ _ _ |- _ =>
             let F := fresh "F" in
             pose proof (adjust_speed_quiet E b s w) as F;
             rewrite H in F; cbn in F; destruct F; clear H
         end.
  all: simp_log; auto.
Qed.

Lemma record_audio_quiet (E : Env) (w : World) :
  translations (log (record_audio E w)) = [] /\
  successes (log (record_audio E w)) = [].
Proof.
  unfold record_audio, NamedTemporaryFile. unfold_monad. run; auto.
Qed.

Lemma display_section_quiet (w : World) :
  translations (log (display_section w)) = [] /\
  successes (log (display_section w)) = [].
Proof.
  unfold display_section. unfold_monad. run; auto.
Qed.

Lemma playback_section_quiet (E : Env) (fr : MainLocals) (w : World) :
  translations (log (playback_section E (fr, w))) = [] /\
  successes (log (playback_section E (fr, w))) = [].
Proof.
  unfold playback_section, read_speed. unfold_monad. run.
  all: repeat match goal with
         | H : text_to_speech ?E ?t ?c ?s ?w = mkOut _ _ _ |- _ =>
             let F := fresh "F" in
             pose proof (text_to_speech_quiet E t c s w) as F;
             rewrite H in F; cbn in F; destruct F; clear H
         end.
  all: simp_log; auto.
Qed.

(** With nothing to play, the playback section does nothing. *)
Lemma playback_section_nothing_to_play (E : Env) (fr : MainLocals) (w : World) :
  is_truthy (translated_text (session w)) = false ->
  playback_section E (fr, w) = mkOut (Ok tt) (fr, w) [].
Proof.
  intros H. unfold playback_section, is_truthy in *. unfold_monad. cbn.
  destruct (translated_text (session w)) as [t|]; [rewrite H|]; reflexivity.
Qed.

(** With [speed] bound the playback section completes. *)
Lemma playback_section_completes (E : Env) (fr : MainLocals) (w : World) (v : float) :
  speed fr = Some v ->
  res (playback_section E (fr, w)) = Ok tt.
Proof.
  intros Hv. destruct (playback_section_frame E fr w) as (_ & _ & _ & _ & [H|[_ H]] & _).
  - exact H.
  - congruence.
Qed.

(** The translation section: what it asks of the translator, and which
    session fields it writes. *)
Lemma translation_section_requests (E : Env) (inp : Inputs) (fr : MainLocals) (w : World) :
  let o := translation_section E inp (fr, w) in
  detected_lang (session (snd (st o))) = detected_lang (session w) /\
  successes (log o) = [] /\
  (translate_clicked inp = false ->
     translated_text (session (snd (st o))) = translated_text (session w) /\
     translations (log o) = []) /\
  (translations (log o) = [] \/
   exists text tl,
     input_text (session w) = Some text /\
     target_lang (session (snd (st o))) = Some tl /\
     translations (log o) = [(text, fst tl, "auto")]) /\
  (is_truthy (input_text (session w)) = false ->
     translated_text (session (snd (st o))) = translated_text (session w)).
Proof.
  unfold translation_section, selectbox, set_speed, set_translated_text,
    set_target_lang, LANGUAGES.
  unfold_monad. run.
  all: repeat split; try reflexivity; try discriminate; eauto 10.
Qed.

(** The record action says nothing to the translator, and writes
    [input_text] and [detected_lang] only. *)
Lemma record_section_quiet (E : Env) (inp : Inputs) (fr : MainLocals) (w : World) :
  translations (log (record_section E inp (fr, w))) = [].
Proof.
  unfold record_section, record_try, record_except, record_finally,
    set_audio_file, set_input_text, set_detected_lang.
  unfold_monad.
  destruct (record_clicked inp); [|reflexivity].
  run.
  all: repeat match goal with
         | H : record_audio ?E ?w = mkOut _ _ _ |- _ =>
             let F := fresh "F" in
             pose proof (record_audio_quiet E w) as F;
             rewrite H in F; cbn in F; destruct F; clear H
         | H : detect_language ?E ?t ?w = mkOut _ _ _ |- _ =>
             let F := fresh "F" in
             pose proof (detect_language_result E t w) as F;
             rewrite H in F; cbn -[dict_get] in F; destruct F as (_ & ? & ?); clear H
         end.
  all: simp_log; auto.
Qed.

(** The translation section with an input text: the selector's value is in
    the session afterwards and [speed] is bound to the slider's value. *)
Lemma translation_section_selection (E : Env) (inp : Inputs) (fr : MainLocals)
    (w : World) (text : string) (tl : string * string) :
  input_text (session w) = Some text ->
  truthy text = true ->
  res (selectbox LANGUAGES w) = Ok (Some tl) ->
  let o := translation_section E inp (fr, w) in
  speed (fst (st o)) = Some (slider_value inp) /\
  target_lang (session (snd (st o))) = Some tl.
Proof.
  intros Hi Ht. unfold translation_section, selectbox, set_speed, set_translated_text,
    set_target_lang, LANGUAGES.
  unfold_monad. cbn. rewrite Hi. cbn. rewrite Ht.
  destruct (target_lang (session w)) as [tl'|] eqn:Htl; cbn; intros [= <-];
    run; split; congruence.
Qed.

(** A successful translation call: the result is stored. *)
Lemma translation_section_success (E : Env) (inp : Inputs) (fr : MainLocals)
    (w : World) (text t' : string) (tl : string * string) :
  translate_clicked inp = true ->
  input_text (session w) = Some text ->
  truthy text = true ->
  res (selectbox LANGUAGES w) = Ok (Some tl) ->
  translate E (clock w) text (fst tl) "auto" = Ok t' ->
  let o := translation_section E inp (fr, w) in
  translated_text (session (snd (st o))) = Some t' /\
  errors (log o) = [] /\
  translations (log o) = [(text, fst tl, "auto")].
Proof.
  intros Hc Hi Ht Hs He.
  unfold translation_section, selectbox, set_speed, set_translated_text,
    set_target_lang, LANGUAGES in *.
  unfold_monad. cbn in *. rewrite Hi. cbn. rewrite Ht, Hc.
  destruct (target_lang (session w)) as [tl'|] eqn:Htl; cbn in *;
    injection Hs as <-; cbn in *;
    rewrite Htl; cbn; rewrite He; cbn; auto.
Qed.

(** The record action when capture and recognition succeed. *)
Lemma record_section_success (E : Env) (inp : Inputs) (fr : MainLocals)
    (w w1 : World) (p : string) (l1 : list event) (wav audio_data : bytes)
    (text : string) :
  record_clicked inp = true ->
  record_audio E w = mkOut (Ok p) w1 l1 ->
  fs w1 !! p = Some wav ->
  recognizer_record E (clock w1) wav = Ok audio_data ->
  recognize_google E (S (clock w1)) audio_data = Ok text ->
  let o := record_section E inp (fr, w) in
  input_text (session (snd (st o))) = Some text /\
  detected_lang (session (snd (st o))) =
    (if truthy text
     then Some (match detect E (S (S (clock w1))) text with
                | Ok code => (Some code, dict_get LANGUAGES code code)
                | Raise _ => (None, "Unknown")
                end)
     else detected_lang (session w)) /\
  successes (log o) =
    (if truthy text then ["Voice recorded successfully!"] else []) /\
  errors (log o) = [].
Proof.
  intros Hc Hr Hf Ha Hg. unfold record_section. rewrite Hc.
  unfold record_try, record_except, record_finally,
    set_audio_file, set_input_text, set_detected_lang.
  unfold_monad.
  destruct (record_audio_frame E w) as (Hs1 & _ & He1 & _).
  destruct (record_audio_quiet E w) as (_ & Hq1).
  rewrite Hr in Hs1, He1, Hq1. cbn in Hs1, He1, Hq1.
  exec Hr. exec Hf. exec Ha. exec Hg.
  destruct (truthy text) eqn:Ht; cbn -[lookup insert delete exn_str dict_get].
  - match goal with
    | |- context [detect_language E text ?w2] =>
        destruct (detect_language_result E text w2) as (Hd & _ & Hqd);
        destruct (detect_language_frame E text w2) as (_ & Hsd & Hfd & _ & _ & Hed);
        destruct (detect_language E text w2) as [rd wd ld]
    end.
    cbn -[lookup insert delete exn_str dict_get] in *.
    destruct (detect E (S (S (clock w1))) text) as [code|e];
      subst rd;
      repeat progress (cbn -[lookup insert delete exn_str dict_get];
                       rewrite ?Hfd, ?Hf, ?Hsd);
      repeat progress (autorewrite with trace;
                       cbn -[lookup insert delete exn_str dict_get];
                       rewrite ?He1, ?Hq1, ?Hqd, ?Hed);
      auto.
  - repeat progress (cbn -[lookup insert delete exn_str dict_get]; rewrite ?Hf).
    repeat progress (autorewrite with trace;
                     cbn -[lookup insert delete exn_str dict_get];
                     rewrite ?He1, ?Hq1, ?Hs1).
    auto.
Qed.

Lemma record_except_shows (e : exn) (s : MainLocals * World) :
  record_except e s = mkOut (Ok tt) s [st_error (record_error_message e)].
Proof. destruct s as [fr w]. destruct e; reflexivity. Qed.

(** ** main *)

(** X8. A run of [main] either completes or stops with the unbound local
    [speed]; every other failure is caught on the way.  It stops exactly
    when it ends with a translation to play and no input text. *)
Theorem main_raises_iff (E : Env) (inp : Inputs) (w : World) :
  let o := main E inp w in
  (res o = Ok tt \/ res o = Raise (UnboundLocalError "speed")) /\
  (res o = Raise (UnboundLocalError "speed") <->
   is_truthy (input_text (session (st o))) = false /\
   is_truthy (translated_text (session (st o))) = true).
Proof.
  cbv zeta. rewrite main_sections. cbn.
  destruct (record_section_frame E inp (mkLocals None None) w) as (_ & Hv1 & _).
  destruct (record_section E inp (mkLocals None None, w)) as [r1 [fr1 w1] l1].
  cbn in *.
  destruct (translation_section_frame E inp fr1 w1)
    as (_ & _ & Hi3 & _ & _ & Hyes & Hno).
  destruct (translation_section E inp (fr1, w1)) as [r3 [fr3 w3] l3]. cbn in *.
  destruct (playback_section_frame E fr3 w3) as (_ & Hs4 & _).
  rewrite Hs4, Hi3.
  destruct (is_truthy (input_text (session w1))) eqn:Hin.
  - destruct (Hyes eq_refl) as [Hv3 _].
    rewrite (playback_section_completes E fr3 w3 _ Hv3).
    split; [now left|]. split; [discriminate | intros [? _]; discriminate].
  - destruct (Hno eq_refl) as [[= -> ->] _].
    destruct (is_truthy (translated_text (session w1))) eqn:Htr.
    + destruct (playback_section_unbound_speed E fr1 w1 Hv1 Htr) as [Hr _].
      rewrite Hr. split; [now right | tauto].
    + rewrite (playback_section_nothing_to_play E fr1 w1 Htr). cbn.
      split; [now left|]. split; [discriminate | intros [_ ?]; discriminate].
Qed.

(** X9. After a record action in which capture and recognition succeed
    with a non-empty transcript, the run completes, [input_text] is the
    transcript, [detected_lang] is the detector's answer for it with its
    display name (the sentinel when the detector fails), and the success
    notice is shown once. *)
Theorem record_success_stores_transcript (E : Env) (inp : Inputs) (w w1 : World)
    (p : string) (l1 : list event) (wav audio_data : bytes) (text : string) :
  record_clicked inp = true ->
  record_audio E w = mkOut (Ok p) w1 l1 ->
  fs w1 !! p = Some wav ->
  recognizer_record E (clock w1) wav = Ok audio_data ->
  recognize_google E (S (clock w1)) audio_data = Ok text ->
  truthy text = true ->
  let o := main E inp w in
  res o = Ok tt /\
  input_text (session (st o)) = Some text /\
  detected_lang (session (st o)) =
    Some (match detect E (S (S (clock w1))) text with
          | Ok code => (Some code, dict_get LANGUAGES code code)
          | Raise _ => (None, "Unknown")
          end) /\
  successes (log o) = ["Voice recorded successfully!"].
Proof.
  intros Hc Hr Hf Ha Hg Ht. cbv zeta. rewrite main_sections. cbn -[dict_get].
  destruct (record_section_success E inp (mkLocals None None) w w1 p l1 wav
              audio_data text Hc Hr Hf Ha Hg) as (Hi1 & Hd1 & Hq1 & _).
  rewrite Ht in Hd1, Hq1.
  destruct (record_section E inp (mkLocals None None, w)) as [r1 [fr1 w1'] l1'].
  cbn -[dict_get] in *.
  destruct (display_section_quiet w1') as [_ Hq2].
  destruct (translation_section_frame E inp fr1 w1')
    as (_ & _ & Hi3 & _ & _ & Hyes & _).
  destruct (translation_section_requests E inp fr1 w1') as (Hd3 & Hq3 & _).
  destruct (translation_section E inp (fr1, w1')) as [r3 [fr3 w3] l3].
  cbn -[dict_get] in *.
  destruct (playback_section_frame E fr3 w3) as (_ & Hs4 & _).
  destruct (playback_section_quiet E fr3 w3) as [_ Hq4].
  destruct Hyes as [Hv3 _]; [rewrite Hi1; exact Ht|].
  rewrite (playback_section_completes E fr3 w3 _ Hv3), Hs4.
  autorewrite with trace. rewrite Hq1, Hq2, Hq3, Hq4.
  repeat split; congruence.
Qed.

Lemma record_success_stores_transcript_witness :
  input_text (session (st (main studio (mkInputs true false 1) w0))) =
    Some "Hello, how are you?" /\
  detected_lang (session (st (main studio (mkInputs true false 1) w0))) =
    Some (Some "en", "English").
Proof.
  destruct (record_success_stores_transcript studio (mkInputs true false 1) w0
              (st (record_audio studio w0)) "/tmp/tmpk3.wav"
              (log (record_audio studio w0))
              [Byte.x52; Byte.x01; Byte.x02] [Byte.x52; Byte.x01; Byte.x02]
              "Hello, how are you?")
    as (_ & Hi & Hd & _); try reflexivity.
  split; assumption.
Defined.

(** X10. When the recogniser returns an empty transcript, the record
    action stores it in [input_text] but skips detection: [detected_lang]
    keeps its previous value, no success notice and no error is shown by the
    record action, and nothing is sent to the translator in that run. *)
Theorem record_empty_transcript (E : Env) (inp : Inputs) (w w1 : World)
    (p : string) (l1 : list event) (wav audio_data : bytes) (text : string) :
  record_clicked inp = true ->
  record_audio E w = mkOut (Ok p) w1 l1 ->
  fs w1 !! p = Some wav ->
  recognizer_record E (clock w1) wav = Ok audio_data ->
  recognize_google E (S (clock w1)) audio_data = Ok text ->
  truthy text = false ->
  let o := main E inp w in
  input_text (session (st o)) = Some text /\
  detected_lang (session (st o)) = detected_lang (session w) /\
  translated_text (session (st o)) = translated_text (session w) /\
  successes (log o) = [] /\
  translations (log o) = [].
Proof.
  intros Hc Hr Hf Ha Hg Ht. cbv zeta. rewrite main_sections. cbn.
  destruct (record_section_success E inp (mkLocals None None) w w1 p l1 wav
              audio_data text Hc Hr Hf Ha Hg) as (Hi1 & Hd1 & Hq1 & _).
  rewrite Ht in Hd1, Hq1.
  destruct (record_section_frame E inp (mkLocals None None) w) as (_ & _ & Ht1 & _).
  pose proof (record_section_quiet E inp (mkLocals None None) w) as Hx1.
  destruct (record_section E inp (mkLocals None None, w)) as [r1 [fr1 w1'] l1'].
  cbn in *.
  destruct (display_section_quiet w1') as [Hx2 Hq2].
  destruct (translation_section_frame E inp fr1 w1')
    as (_ & _ & _ & _ & _ & _ & Hno).
  destruct (Hno ltac:(rewrite Hi1; exact Ht)) as [Hst Hl3].
  destruct (translation_section E inp (fr1, w1')) as [r3 [fr3 w3] l3].
  cbn in *. injection Hst as -> ->. subst l3.
  destruct (playback_section_frame E fr1 w1') as (_ & Hs4 & _).
  destruct (playback_section_quiet E fr1 w1') as [Hx4 Hq4].
  rewrite Hs4. autorewrite with trace. rewrite Hq1, Hq2, Hq4, Hx1, Hx2, Hx4.
  repeat split; congruence.
Qed.

Lemma record_empty_transcript_witness :
  input_text (session (st (main empty_transcript (mkInputs true false 1)
                                (mkWorld translated_session ∅ 0)))) = Some EmptyString /\
  detected_lang (session (st (main empty_transcript (mkInputs true false 1)
                                   (mkWorld translated_session ∅ 0)))) =
    Some (Some "en", "English").
Proof.
  destruct (record_empty_transcript empty_transcript (mkInputs true false 1)
              (mkWorld translated_session ∅ 0)
              (st (record_audio empty_transcript (mkWorld translated_session ∅ 0)))
              "/tmp/tmpk3.wav"
              (log (record_audio empty_transcript (mkWorld translated_session ∅ 0)))
              [Byte.x52; Byte.x01; Byte.x02] [Byte.x52; Byte.x01; Byte.x02]
              EmptyString)
    as (Hi & Hd & _); try reflexivity.
  split; assumption.
Defined.

(** X11. A successful translate action stores the translation, completes,
    and speaks it at once: the first synthesis attempt is for the new text,
    in the selected language, at the slider's speed.  The translator was
    asked once, for the input text, with source hint [auto]. *)
Theorem translate_success_is_stored_and_spoken (E : Env) (inp : Inputs) (w : World)
    (text t' : string) (tl : string * string) :
  record_clicked inp = false ->
  translate_clicked inp = true ->
  input_text (session w) = Some text ->
  truthy text = true ->
  res (selectbox LANGUAGES w) = Ok (Some tl) ->
  translate E (clock w) text (fst tl) "auto" = Ok t' ->
  let o := main E inp w in
  res o = Ok tt /\
  translated_text (session (st o)) = Some t' /\
  translations (log o) = [(text, fst tl, "auto")] /\
  (truthy t' = true ->
   exists rest, attempts (log o) = (t', fst tl, slider_value inp) :: rest).
Proof.
  intros Hr Hc Hi Ht Hs He. cbv zeta. rewrite main_sections.
  rewrite (record_section_skipped E inp _ Hr). cbn.
  destruct (display_section_frame w) as (_ & _ & Ha2 & _).
  destruct (display_section_quiet w) as [Hx2 _].
  destruct (translation_section_success E inp (mkLocals None None) w text t' tl
              Hc Hi Ht Hs He) as (Htt & _ & Hx3).
  destruct (translation_section_selection E inp (mkLocals None None) w text tl
              Hi Ht Hs) as (Hv3 & Htl3).
  destruct (translation_section_frame E inp (mkLocals None None) w)
    as (_ & _ & _ & Ha3 & _).
  destruct (translation_section E inp (mkLocals None None, w)) as [r3 [fr3 w3] l3].
  cbn in *.
  destruct (playback_section_frame E fr3 w3) as (_ & Hs4 & _).
  destruct (playback_section_quiet E fr3 w3) as [Hx4 _].
  rewrite (playback_section_completes E fr3 w3 _ Hv3), Hs4.
  autorewrite with trace. rewrite Ha2, Ha3, Hx2, Hx3, Hx4. cbn.
  repeat split; auto.
  intros Htr.
  destruct (playback_section_attempts E fr3 w3 t' (slider_value inp) Htt Htr Hv3)
    as (_ & Hok & Hko).
  assert (target_code (session w3) = fst tl) as Hcode
    by (unfold target_code; now rewrite Htl3).
  rewrite Hcode in Hok, Hko.
  destruct (text_to_speech_frame E t' (fst tl) (slider_value inp) w3)
    as ([[|] Hres] & _).
  - rewrite (Hok Hres). eauto.
  - destruct (Hko Hres) as [-> _]. eauto.
Qed.

Lemma translate_success_is_stored_and_spoken_witness :
  translated_text (session (st (main studio (mkInputs false true 1.5)
                                     (mkWorld heard_session ∅ 0)))) =
    Some "Hola, como estas?" /\
  translations (log (main studio (mkInputs false true 1.5)
                          (mkWorld heard_session ∅ 0))) =
    [("Hello, how are you?", "es", "auto")].
Proof.
  destruct (translate_success_is_stored_and_spoken studio (mkInputs false true 1.5)
              (mkWorld heard_session ∅ 0) "Hello, how are you?"
              "Hola, como estas?" ("es", "Spanish"))
    as (_ & Ht & Hx & _); try reflexivity.
  split; assumption.
Defined.

(** X12. Playback is not tied to the translate button: in every run with
    an input text and a stored translation in which no button was clicked
    (moving the slider, changing the selection), nothing is translated, the
    stored translation is kept and it is spoken again, in the language now
    selected and at the speed the slider now shows. *)
Theorem stored_translation_is_replayed (E : Env) (inp : Inputs) (w : World)
    (text t : string) (tl : string * string) :
  record_clicked inp = false ->
  translate_clicked inp = false ->
  input_text (session w) = Some text ->
  truthy text = true ->
  res (selectbox LANGUAGES w) = Ok (Some tl) ->
  translated_text (session w) = Some t ->
  truthy t = true ->
  let o := main E inp w in
  res o = Ok tt /\
  translated_text (session (st o)) = Some t /\
  translations (log o) = [] /\
  exists rest, attempts (log o) = (t, fst tl, slider_value inp) :: rest.
Proof.
  intros Hr Hc Hi Ht Hs Htt Htr. cbv zeta. rewrite main_sections.
  rewrite (record_section_skipped E inp _ Hr). cbn.
  destruct (display_section_frame w) as (_ & _ & Ha2 & _).
  destruct (display_section_quiet w) as [Hx2 _].
  destruct (translation_section_requests E inp (mkLocals None None) w)
    as (_ & _ & Hnc & _).
  destruct (Hnc Hc) as [Htt3 Hx3].
  destruct (translation_section_selection E inp (mkLocals None None) w text tl
              Hi Ht Hs) as (Hv3 & Htl3).
  destruct (translation_section_frame E inp (mkLocals None None) w)
    as (_ & _ & _ & Ha3 & _).
  destruct (translation_section E inp (mkLocals None None, w)) as [r3 [fr3 w3] l3].
  cbn in *. rewrite Htt in Htt3.
  destruct (playback_section_frame E fr3 w3) as (_ & Hs4 & _).
  destruct (playback_section_quiet E fr3 w3) as [Hx4 _].
  rewrite (playback_section_completes E fr3 w3 _ Hv3), Hs4.
  autorewrite with trace. rewrite Ha2, Ha3, Hx2, Hx3, Hx4. cbn.
  repeat split; auto.
  destruct (playback_section_attempts E fr3 w3 t (slider_value inp) Htt3 Htr Hv3)
    as (_ & Hok & Hko).
  assert (target_code (session w3) = fst tl) as Hcode
    by (unfold target_code; now rewrite Htl3).
  rewrite Hcode in Hok, Hko.
  destruct (text_to_speech_frame E t (fst tl) (slider_value inp) w3)
    as ([[|] Hres] & _).
  - rewrite (Hok Hres). eauto.
  - destruct (Hko Hres) as [-> _]. eauto.
Qed.

Lemma stored_translation_is_replayed_witness :
  exists rest,
    attempts (log (main studio (mkInputs false false 0.5)
                        (mkWorld translated_session ∅ 0))) =
      ("Hola, como estas?", "es", 0.5%float) :: rest.
Proof.
  apply (stored_translation_is_replayed studio (mkInputs false false 0.5)
           (mkWorld translated_session ∅ 0) "Hello, how are you?"
           "Hola, como estas?" ("es", "Spanish")); reflexivity.
Defined.

(** X13. The recording can leak: when [record_audio] has created its file
    and then fails to convert the captured audio, the exception reaches
    [main] before [audio_file] is bound, so the cleanup of line 143 skips the
    file: the message is shown and the empty file is still there when the
    run ends. *)
Theorem recording_leaks_when_conversion_fails (E : Env) (inp : Inputs) (w : World)
    (audio : bytes) (p : string) (e : exn) :
  record_clicked inp = true ->
  sr_Microphone E (clock w) = Ok tt ->
  recognizer_listen E (S (clock w)) = Ok audio ->
  mkstemp E (S (S (clock w))) ".wav" = Ok p ->
  fs w !! p = None ->
  get_wav_data E (S (S (S (clock w)))) audio = Raise e ->
  let o := main E inp w in
  fs (st o) !! p = Some [] /\
  In p (temp_files (log o)) /\
  In (record_error_message e) (errors (log o)) /\
  input_text (session (st o)) = input_text (session w).
Proof.
  intros Hc Hm Hl Hmk Hfresh Hwav. cbv zeta. rewrite main_sections. cbn.
  assert (record_section E inp (mkLocals None None, w) =
          mkOut (Ok tt)
            (mkLocals None None,
             mkWorld (session w) (<[p := []]> (fs w)) (S (S (S (S (clock w))))))
            ([Request q_Microphone; st_info "Speak now (3-5 seconds)...";
              Request q_listen; Request (q_mkstemp ".wav"); TempFile p;
              Request q_get_wav_data; st_error (record_error_message e)])) as Hrec.
  { unfold record_section. rewrite Hc.
    unfold record_try, record_finally, record_audio, NamedTemporaryFile.
    unfold_monad.
    exec Hm. exec Hl. exec Hmk. exec Hfresh. exec Hwav.
    rewrite record_except_shows. reflexivity. }
  rewrite Hrec. cbn -[lookup insert].
  set (w1 := {| session := session w; fs := <[p:=[]]> (fs w);
                clock := S (S (S (S (clock w)))) |}).
  destruct (translation_section_frame E inp (mkLocals None None) w1)
    as (_ & Hfs3 & Hi3 & _).
  destruct (translation_section E inp (mkLocals None None, w1)) as [r3 [fr3 w3] l3].
  cbn -[lookup insert] in *.
  destruct (playback_section_frame E fr3 w3) as (_ & Hs4 & Hfs4 & _).
  rewrite Hfs4, Hfs3, Hs4, Hi3. simp_fs.
  repeat split; auto.
Qed.

Lemma recording_leaks_when_conversion_fails_witness :
  fs (st (main conversion_failure (mkInputs true false 1) w0)) !! "/tmp/tmpk3.wav"
    = Some [].
Proof.
  apply (recording_leaks_when_conversion_fails conversion_failure
           (mkInputs true false 1) w0 [Byte.x01; Byte.x02] "/tmp/tmpk3.wav"
           (OtherError "conversion failed")); reflexivity.
Defined.

(** X14. [main] writes the session only on the matching click: a run in
    which Record was not clicked leaves [input_text] and [detected_lang] as
    they were, and a run in which Translate was not clicked leaves
    [translated_text] as it was and sends nothing to the translator -
    whatever the collaborators do. *)
Theorem main_writes_only_on_click (E : Env) (inp : Inputs) (w : World) :
  let o := main E inp w in
  (record_clicked inp = false ->
     input_text (session (st o)) = input_text (session w) /\
     detected_lang (session (st o)) = detected_lang (session w)) /\
  (translate_clicked inp = false ->
     translated_text (session (st o)) = translated_text (session w) /\
     translations (log o) = []).
Proof.
  cbv zeta. rewrite main_sections. cbn. split.
  - intros Hr. rewrite (record_section_skipped E inp _ Hr). cbn.
    destruct (translation_section_frame E inp (mkLocals None None) w)
      as (_ & _ & Hi3 & _).
    destruct (translation_section_requests E inp (mkLocals None None) w)
      as (Hd3 & _).
    destruct (translation_section E inp (mkLocals None None, w)) as [r3 [fr3 w3] l3].
    cbn in *.
    destruct (playback_section_frame E fr3 w3) as (_ & Hs4 & _).
    rewrite Hs4. auto.
  - intros Hc.
    destruct (record_section_frame E inp (mkLocals None None) w) as (_ & _ & Ht1 & _).
    pose proof (record_section_quiet E inp (mkLocals None None) w) as Hx1.
    destruct (record_section E inp (mkLocals None None, w)) as [r1 [fr1 w1] l1].
    cbn in *.
    destruct (display_section_quiet w1) as [Hx2 _].
    destruct (translation_section_requests E inp fr1 w1) as (_ & _ & Hnc & _).
    destruct (Hnc Hc) as [Ht3 Hx3].
    destruct (translation_section E inp (fr1, w1)) as [r3 [fr3 w3] l3]. cbn in *.
    destruct (playback_section_frame E fr3 w3) as (_ & Hs4 & _).
    destruct (playback_section_quiet E fr3 w3) as [Hx4 _].
    rewrite Hs4. autorewrite with trace. rewrite Hx1, Hx2, Hx3, Hx4.
    split; [congruence | reflexivity].
Qed.

(** X15. A run of [main] calls the translator at most once, and then for
    the input text of the session, with the code of the target language
    that is in the session when the run ends, and with source hint
    [auto]. *)
Theorem main_translation_request (E : Env) (inp : Inputs) (w : World) :
  let o := main E inp w in
  translations (log o) = [] \/
  exists text tl,
    input_text (session (st o)) = Some text /\
    target_lang (session (st o)) = Some tl /\
    translations (log o) = [(text, fst tl, "auto")].
Proof.
  cbv zeta. rewrite main_sections. cbn.
  pose proof (record_section_quiet E inp (mkLocals None None) w) as Hx1.
  destruct (record_section E inp (mkLocals None None, w)) as [r1 [fr1 w1] l1].
  cbn in *.
  destruct (display_section_quiet w1) as [Hx2 _].
  destruct (translation_section_frame E inp fr1 w1) as (_ & _ & Hi3 & _).
  destruct (translation_section_requests E inp fr1 w1) as (_ & _ & _ & Hreq & _).
  destruct (translation_section E inp (fr1, w1)) as [r3 [fr3 w3] l3]. cbn in *.
  destruct (playback_section_frame E fr3 w3) as (_ & Hs4 & _).
  destruct (playback_section_quiet E fr3 w3) as [Hx4 _].
  rewrite Hs4. autorewrite with trace. rewrite Hx1, Hx2, Hx4. cbn.
  rewrite app_nil_r.
  destruct Hreq as [Hnil | (text & tl & Hi & Htl & Hx)].
  - now left.
  - right. exists text, tl. repeat split; congruence.
Qed.
